(** * ppmdiff: the P3 decoder and the difference engine

    A shallow embedding of [utility.py] (the decoder of plain-text P3
    pixmaps) and of [ppmdiff.py] (header comparison and the generation
    of the digital and analog difference images), with the properties of
    the two modules stated and proved over the embedding.

    Conventions.
    - Python [int] is [Z]; [//] and [%] are [Z.div] and [Z.modulo] (both
      round towards minus infinity and give the remainder the sign of the
      divisor, as Python does), guarded by the [ZeroDivisionError] that
      Python raises on a zero divisor.
    - Python [str] is [string]; a character is a code point below 256.
    - A text stream open for reading is the text that is still unread,
      as the program sees it (line ends already translated to the line
      feed), for a file whose bytes are a text in the encoding in use:
      a read that fails has no counterpart here.  A text stream open
      for writing is the text written so far.
    - A computation that may raise returns a [result]. *)

From Stdlib Require Import ZArith List String Ascii Bool Lia.
From Stdlib Require Import Decimal DecimalString DecimalZ.
Import ListNotations.

#[local] Open Scope string_scope.
#[local] Open Scope Z_scope.

(* ================================================================= *)
(** ** Exceptions and results *)

(** The exceptions the two modules can raise.  The three decoder errors
    are classes of the [data] module; the pixel errors carry the message
    they were built with, the header error is built without one.
    [ZeroDivisionError] is the interpreter's. *)
Inductive exn : Type :=
| P3InvalidHeaderError
| PartialPixelError (msg : string)
| MalformedPixelError (msg : string)
| ZeroDivisionError.

Inductive result (A : Type) : Type :=
| Ok (a : A)
| Raise (e : exn).
Arguments Ok {A} a.
Arguments Raise {A} e.

Definition bind {A B} (m : result A) (k : A -> result B) : result B :=
  match m with
  | Ok a => k a
  | Raise e => Raise e
  end.

Notation "x <- m ;; k" := (bind m (fun x => k))
  (at level 61, m at next level, right associativity).
Notation "' p <- m ;; k" := (bind m (fun x => let p := x in k))
  (at level 61, p pattern, m at next level, right associativity).

(* ================================================================= *)
(** ** The Python built-ins the program uses *)

Module Py.

(** The line feed. *)
Definition LF : ascii := "010"%char.
Definition nl : string := String LF "".

(** [str.isspace] on one character: the ASCII white space (tab, line
    feed, vertical tab, form feed, carriage return, the four separators
    28-31, space) and, above 127, NEL and the no-break space. *)
Definition isspace (c : ascii) : bool :=
  let n := nat_of_ascii c in
  ((9 <=? n) && (n <=? 13) || (28 <=? n) && (n <=? 32)
   || (n =? 133) || (n =? 160))%nat.

(** [s.lstrip()], [s.rstrip()] and [s.strip()]. *)
Fixpoint lstrip (s : string) : string :=
  match s with
  | "" => ""
  | String c s' => if isspace c then lstrip s' else s
  end.

Fixpoint rstrip (s : string) : string :=
  match s with
  | "" => ""
  | String c s' =>
      match rstrip s' with
      | "" => if isspace c then "" else String c ""
      | r => String c r
      end
  end.

Definition strip (s : string) : string := rstrip (lstrip s).

(** [s.split()]: the maximal runs of characters that are not white
    space, in order; [cur] is the run being read. *)
Fixpoint split_from (cur : string) (s : string) : list string :=
  match s with
  | "" => match cur with "" => [] | _ => [cur] end
  | String c s' =>
      if isspace c
      then match cur with
           | "" => split_from "" s'
           | _ => cur :: split_from "" s'
           end
      else split_from (cur ++ String c "") s'
  end.

Definition split (s : string) : list string := split_from "" s.

(** [f.readline()]: the text up to and including the first line feed
    (all of it when there is none), and the text left in the stream. *)
Fixpoint readline (f : string) : string * string :=
  match f with
  | "" => ("", "")
  | String c f' =>
      if Ascii.eqb c LF then (String c "", f')
      else let (line, rest) := readline f' in (String c line, rest)
  end.

(** [f.readlines()]: the remaining lines; the stream is left empty. *)
Fixpoint readlines_fuel (fuel : nat) (f : string) : list string :=
  match fuel with
  | O => []
  | S fuel' =>
      match f with
      | "" => []
      | _ => let (line, rest) := readline f in
             line :: readlines_fuel fuel' rest
      end
  end.

Definition readlines (f : string) : list string :=
  readlines_fuel (String.length f) f.

(** [sep.join(l)]. *)
Definition join (sep : string) (l : list string) : string :=
  String.concat sep l.

(** The value of a decimal digit. *)
Definition digit (c : ascii) : option Z :=
  let n := nat_of_ascii c in
  if ((48 <=? n) && (n <=? 57))%nat then Some (Z.of_nat n - 48) else None.

(** The digits of an integer literal: a digit, then digits each
    optionally preceded by one underscore.  [seen] tells that the
    previous character was a digit. *)
Fixpoint int_digits (seen : bool) (acc : Z) (s : string) : option Z :=
  match s with
  | "" => if seen then Some acc else None
  | String c s' =>
      match digit c with
      | Some d => int_digits true (10 * acc + d) s'
      | None =>
          if Ascii.eqb c "_" && seen then int_digits false acc s' else None
      end
  end.

(** The white space that [int] drops around a literal: tab to carriage
    return, space and, above 127, NEL and the no-break space; not the
    separators 28-31, which [str.strip] drops. *)
Definition isspace_int (c : ascii) : bool :=
  let n := nat_of_ascii c in
  ((9 <=? n) && (n <=? 13) || (n =? 32) || (n =? 133) || (n =? 160))%nat.

Fixpoint lstrip_int (s : string) : string :=
  match s with
  | "" => ""
  | String c s' => if isspace_int c then lstrip_int s' else s
  end.

Fixpoint rstrip_int (s : string) : string :=
  match s with
  | "" => ""
  | String c s' =>
      match rstrip_int s' with
      | "" => if isspace_int c then "" else String c ""
      | r => String c r
      end
  end.

(** The limit of the interpreter on the digits of an integer that is
    read from or written as a decimal numeral
    ([sys.int_info.default_max_str_digits]). *)
Definition max_str_digits : nat := 4300.

(** The number of digits of a literal; signs and underscores do not
    count, leading zeros do. *)
Fixpoint count_digits (s : string) : nat :=
  match s with
  | "" => 0
  | String c s' =>
      match digit c with
      | Some _ => S (count_digits s')
      | None => count_digits s'
      end
  end.

(** [int(s)] in base ten: [Some n], or [None] for [ValueError].  White
    space around the literal is dropped, one sign is allowed, and a
    literal of more than [max_str_digits] digits is refused. *)
Definition int (s : string) : option Z :=
  let literal := rstrip_int (lstrip_int s) in
  if (count_digits literal <=? max_str_digits)%nat then
    match literal with
    | String "-" r => option_map Z.opp (int_digits false 0 r)
    | String "+" r => int_digits false 0 r
    | r => int_digits false 0 r
    end
  else None.

(** [str(n)] for an integer, also what ['{}'.format(n)] inserts.  The
    interpreter raises [ValueError] instead for an integer of more than
    [max_str_digits] digits, which is not modelled: the numeral is
    defined here for every integer. *)
Definition str (n : Z) : string := NilZero.string_of_int (Z.to_int n).

(** [template.format(a1, ..., an)] for templates whose only fields are [{}]:
    the fields are replaced by the arguments in order.  Every call in
    the program passes as many arguments as the template has fields. *)
Fixpoint format (template : string) (args : list string) : string :=
  match template with
  | String "{" (String "}" t) =>
      match args with
      | a :: args' => a ++ format t args'
      | [] => format t []
      end
  | String c t => String c (format t args)
  | "" => ""
  end.

(** [a // b] and [a % b]. *)
Definition floordiv (a b : Z) : result Z :=
  if b =? 0 then Raise ZeroDivisionError else Ok (a / b).

Definition mod_ (a b : Z) : result Z :=
  if b =? 0 then Raise ZeroDivisionError else Ok (a mod b).

(** [range(start, stop, step)] for a positive step. *)
Fixpoint range_fuel (fuel start stop step : nat) : list nat :=
  match fuel with
  | O => []
  | S fuel' =>
      if (start <? stop)%nat
      then start :: range_fuel fuel' (start + step) stop step
      else []
  end.

Definition range (start stop step : nat) : list nat :=
  range_fuel stop start stop step.

(** The slice [l[i:j]] for indices that are not negative. *)
Definition slice {A} (l : list A) (i j : nat) : list A :=
  firstn (j - i) (skipn i l).

(** [enumerate(l)], counting from [start]. *)
Fixpoint enumerate_from {A} (start : nat) (l : list A) : list (nat * A) :=
  match l with
  | [] => []
  | x :: l' => (start, x) :: enumerate_from (S start) l'
  end.

Definition enumerate {A} (l : list A) : list (nat * A) := enumerate_from 0 l.

(** [zip(l1, l2)] stops with the shorter list. *)
Fixpoint zip {A B} (l1 : list A) (l2 : list B) : list (A * B) :=
  match l1, l2 with
  | x :: l1', y :: l2' => (x, y) :: zip l1' l2'
  | _, _ => []
  end.

(** [print(text, file=f, end=e)]. *)
Definition print (text : string) (end_ : string) (f : string) : string :=
  f ++ text ++ end_.

End Py.

(* ================================================================= *)
(** ** The [data] module *)

Module Data.

(** Modelled from the spec: the class [Header] of [data.py], which is not
    among the sources.  "Header: { width, height, max_color }", built by
    [Header(width, height, max_color)]; the constructor checks nothing. *)
Record Header : Type := mkHeader {
  width : Z;
  height : Z;
  max_color : Z
}.

(** Modelled from the spec: the class [Pixel] of [data.py], which is not
    among the sources.  "Pixel: { red, green, blue: integer }", built by
    [Pixel(red, green, blue)]. *)
Record Pixel : Type := mkPixel {
  red : Z;
  green : Z;
  blue : Z
}.

(** Modelled from the spec: [Pixel.__eq__] of [data.py].  "Two Pixels are
    equal iff all three channels match." *)
Definition Pixel_eq (p1 p2 : Pixel) : bool :=
  (red p1 =? red p2) && (green p1 =? green p2) && (blue p1 =? blue p2).

(** Modelled from the spec: the class [Image] of [data.py], which is not
    among the sources.  "Image: { header: Header, pixels: ordered
    sequence of Pixel }", built by [Image(header, pixels)]. *)
Record Image : Type := mkImage {
  header : Header;
  pixels : list Pixel
}.

(** Modelled from the spec: [Header.__eq__] and [Header.__ne__] of
    [data.py].  "Two Headers are equal iff all three fields match." *)
Definition Header_eq (h1 h2 : Header) : bool :=
  (width h1 =? width h2) && (height h1 =? height h2)
  && (max_color h1 =? max_color h2).

End Data.

(* ================================================================= *)
(** ** [utility.py]: the decoder *)

Module Utility.
Import Py Data.

Definition MALFORMED_PIXEL : string := "invalid pixel at <row={}, col={}>".
Definition PARTIAL_PIXEL : string := "partial pixel at <row={}, col={}>".

Definition P3_ID : string := "P3".

(** Convert a value to an integer; if this fails, return the default.
    Every caller passes [None] as the default. *)
Definition _convert_int (value : string) (default : option Z) : option Z :=
  match int value with
  | Some n => Some n
  | None => default
  end.

(** Convert the dimensions line to the pair of width and height. *)
Definition _convert_dimensions (dimension_str : string) : result (Z * Z) :=
  let dim_list := split dimension_str in
  if (List.length dim_list =? 2)%nat then
    let width := _convert_int (nth 0 dim_list "") None in
    let height := _convert_int (nth 1 dim_list "") None in
    match width, height with
    | Some width, Some height => Ok (width, height)
    | _, _ => Raise P3InvalidHeaderError
    end
  else Raise P3InvalidHeaderError.

(** Convert the maximum colour line to an integer. *)
Definition _convert_color (color_str : string) : result Z :=
  let max_color := _convert_int color_str None in
  match max_color with
  | None => Raise P3InvalidHeaderError
  | Some max_color => Ok max_color
  end.

(** Read the P3 header; the second component is the stream after the
    three lines have been read. *)
Definition _read_header (infile : string) : result (Header * string) :=
  let (first_, infile) := readline infile in
  let first := strip first_ in
  let (second_, infile) := readline infile in
  let second := strip second_ in
  let (third_, infile) := readline infile in
  let third := strip third_ in
  if negb (first =? P3_ID)%string || (second =? "")%string
     || (third =? "")%string
  then Raise P3InvalidHeaderError
  else
    '(width, height) <- _convert_dimensions second ;;
    max_color <- _convert_color third ;;
    Ok (mkHeader width height max_color, infile).

(** Convert a group of tokens to a pixel, or report an error that names
    the given row and column. *)
Definition _create_pixel (values : list string) (row col : Z)
  : result Pixel :=
  if (List.length values <? 3)%nat then
    Raise (PartialPixelError (format PARTIAL_PIXEL [str row; str col]))
  else
    let red := _convert_int (nth 0 values "") None in
    let green := _convert_int (nth 1 values "") None in
    let blue := _convert_int (nth 2 values "") None in
    match red, green, blue with
    | Some red, Some green, Some blue => Ok (mkPixel red green blue)
    | _, _, _ =>
        Raise (MalformedPixelError (format MALFORMED_PIXEL [str row; str col]))
    end.

(** Group the elements of a list into sublists of size 3. *)
Definition _groups_of_3 (values : list string) : list (list string) :=
  map (fun i => slice values i (i + 3)) (range 0 (List.length values) 3).

(** A list comprehension [[f x for x in l]] whose element expression may
    raise: the elements are computed in order and the first exception
    ends the comprehension. *)
Fixpoint comprehension {A B} (f : A -> result B) (l : list A)
  : result (list B) :=
  match l with
  | [] => Ok []
  | x :: l' =>
      y <- f x ;;
      ys <- comprehension f l' ;;
      Ok (y :: ys)
  end.

(** Read the contents of a P3 file. *)
Definition get_image (infile : string) : result Image :=
  '(header, infile) <- _read_header infile ;;
  let contents := split (join "" (readlines infile)) in
  pixels <- comprehension
              (fun '(idx, group) =>
                 row <- floordiv (Z.of_nat idx) (width header) ;;
                 col <- mod_ (Z.of_nat idx) (width header) ;;
                 _create_pixel group row col)
              (enumerate (_groups_of_3 contents)) ;;
  Ok (mkImage header pixels).

End Utility.

(* ================================================================= *)
(** ** [ppmdiff.py]: the difference engine *)

Module Ppmdiff.
Import Py Data.

Definition COLUMN_MISMATCH : string := "widths differ".
Definition ROW_MISMATCH : string := "heights differ".
Definition MAX_COLOR_MISMATCH : string := "color max values differ".
Definition NO_MISMATCH : string := "nothing differs".

Definition OUT_FILE_DIGITAL : string := "diffimage_digital.ppm".
Definition OUT_FILE_ANALOG : string := "diffimage_analog.ppm".

Definition NUM_ARGS : nat := 3.
Definition FILE_ARG1 : nat := 1.
Definition FILE_ARG2 : nat := 2.

Definition PROG_NAME : string := "ppmdiff.py".

Definition INVALID_P3_FORMAT : string := "invalid P3 header format".
Definition HEADER_MISMATCH : string := "Headers mismatch: {}".

(** Check the command-line arguments for basic validity. *)
Definition check_args (argv : list string) : bool :=
  (List.length argv =? NUM_ARGS)%nat.

(** The program name, or a default value: an empty list and an empty
    first argument are both false in a condition. *)
Definition prog_name (argv : list string) : string :=
  match argv with
  | name :: _ => if (name =? "")%string then PROG_NAME else name
  | [] => PROG_NAME
  end.

(** How a run ends: [sys.exit(status)], or an exception that nothing
    catches (the interpreter then prints a traceback, which is not
    modelled, and the status is 1). *)
Inductive Ending : Type :=
| Exit (status : Z)
| Uncaught (e : exn).

(** The flow of control through a call that may end the run: the call
    returns a value, or the run has ended; either way with the text of
    [sys.stderr] so far. *)
Inductive flow (A : Type) : Type :=
| Go (a : A) (err : string)
| Halt (err : string) (e : Ending).
Arguments Go {A} a err.
Arguments Halt {A} err e.

(** Print an error message and exit: the call does not return, and
    gives the text of [sys.stderr] and the end of the run. *)
Definition error (msg : string) (err : string) : string * Ending :=
  (print (format "{}" [msg]) nl err, Exit 1).

(** Print a usage error message. *)
Definition usage (name : string) (err : string) : string * Ending :=
  error (format "usage: {} image1.ppm image2.ppm" [name]) err.

(** The files of a run: opening a file for reading gives its text or
    fails with an [IOError] that has the given [strerror]; opening a
    file for writing gives an empty file or fails in the same way. *)
Record Env : Type := mkEnv {
  open_read : string -> string + string;
  open_write : string -> option string
}.

(** Attempt to open a file, reporting an error as appropriate; the
    message is ['{0}: {1}'.format(name, e.strerror)]. *)
Definition open_file (name mode : string) (env : Env) (err : string)
  : flow string :=
  if (mode =? "w")%string then
    match open_write env name with
    | None => Go "" err
    | Some strerror =>
        let (err, e) := error (name ++ ": " ++ strerror) err in Halt err e
    end
  else
    match open_read env name with
    | inl text => Go text err
    | inr strerror =>
        let (err, e) := error (name ++ ": " ++ strerror) err in Halt err e
    end.

(** The three text streams the engine writes to. *)
Record Streams : Type := mkStreams {
  out_digital : string;
  out_analog : string;
  stderr : string
}.

Definition to_digital (text end_ : string) (s : Streams) : Streams :=
  mkStreams (print text end_ (out_digital s)) (out_analog s) (stderr s).

Definition to_analog (text end_ : string) (s : Streams) : Streams :=
  mkStreams (out_digital s) (print text end_ (out_analog s)) (stderr s).

Definition to_stderr (text end_ : string) (s : Streams) : Streams :=
  mkStreams (out_digital s) (out_analog s) (print text end_ (stderr s)).

(** Print the header to an output stream. *)
Definition write_header (out : string) (h : Header) : string :=
  let out := print ("P3" ++ nl) nl out in
  let out := print (format ("{} {}" ++ nl) [str (width h); str (height h)])
                   nl out in
  print (format ("{}" ++ nl) [str (max_color h)]) nl out.

(** The component difference between two pixels. *)
Definition pixel_diff (p1 p2 : Pixel) : Pixel :=
  mkPixel (Z.abs (red p1 - red p2)) (Z.abs (green p1 - green p2))
          (Z.abs (blue p1 - blue p2)).

(** The reason for a header mismatch. *)
Definition header_match_error (h1 h2 : Header) : string :=
  if negb (width h1 =? width h2) then COLUMN_MISMATCH
  else if negb (height h1 =? height h2) then ROW_MISMATCH
  else if negb (max_color h1 =? max_color h2) then MAX_COLOR_MISMATCH
  else NO_MISMATCH.

Section Engine.

(** What ['{}'.format(pixel)] inserts for a pixel: [Pixel.__str__] of
    [data.py], which is not among the sources and which the
    specification leaves open. *)
Variable Pixel_str : Pixel -> string.

(** The body of the loop of [process_pixels]: one pair of pixels at
    position [idx], from the streams [s] and the flag [differ].  An
    exception leaves the streams as they are when it is raised. *)
Definition process_pair (header : Header) (idx : nat)
    (pixel1 pixel2 : Pixel) (differ : bool) (s : Streams)
  : Streams * result bool :=
  if Pixel_eq pixel1 pixel2 then
    let s := to_analog (format "{} {} {} "
                          [str (max_color header); str (max_color header);
                           str (max_color header)]) nl s in
    let s := to_digital (format "{} {} {} "
                           [str (max_color header); str (max_color header);
                            str (max_color header)]) nl s in
    (s, Ok differ)
  else
    let diff := pixel_diff pixel1 pixel2 in
    match floordiv (Z.of_nat idx) (width header) with
    | Raise e => (s, Raise e)
    | Ok row =>
    match mod_ (Z.of_nat idx) (width header) with
    | Raise e => (s, Raise e)
    | Ok col =>
        let s := to_stderr (format "pixels at <row={}, col={}> differ.  "
                              [str row; str col]) "" s in
        let s := to_stderr (format "{} <-- --> {}"
                              [Pixel_str pixel1; Pixel_str pixel2]) nl s in
        let s := to_analog (format "{} {} {} "
                              [str (max_color header - red diff);
                               str (max_color header - green diff);
                               str (max_color header - blue diff)]) nl s in
        let s := to_digital (format "0 0 0 " []) nl s in
        (s, Ok true)
    end
    end.

(** The loop of [process_pixels] over the enumerated pairs. *)
Fixpoint process_loop (header : Header)
    (items : list (nat * (Pixel * Pixel))) (differ : bool) (s : Streams)
  : Streams * result bool :=
  match items with
  | [] => (s, Ok differ)
  | (idx, (pixel1, pixel2)) :: items' =>
      match process_pair header idx pixel1 pixel2 differ s with
      | (s', Ok differ') => process_loop header items' differ' s'
      | (s', Raise e) => (s', Raise e)
      end
  end.

(** Process the pixels of two images; write the differences to the
    output streams and return whether a mismatch was found. *)
Definition process_pixels (pixels1 pixels2 : list Pixel)
    (s : Streams) (header : Header) : Streams * result bool :=
  let differ := false in
  process_loop header (enumerate (zip pixels1 pixels2)) differ s.

(** Generate the difference images. *)
Definition generate_diffs (pixels1 pixels2 : list Pixel)
    (s : Streams) (header : Header) : Streams * result bool :=
  let s := mkStreams (write_header (out_digital s) header)
                     (out_analog s) (stderr s) in
  let s := mkStreams (out_digital s)
                     (write_header (out_analog s) header) (stderr s) in
  process_pixels pixels1 pixels2 s header.

(** What a run leaves behind: the text of [sys.stderr], the two output
    files ([None] for a file the run has not opened), and how it ended. *)
Record Run : Type := mkRun {
  run_stderr : string;
  run_digital : option string;
  run_analog : option string;
  run_end : Ending
}.

(** The [except] clauses of [main], for an exception [e] raised when the
    output files are [digital] and [analog].  The pixel errors print
    their message (the error classes of [data.py] are taken to be plain
    exception classes, whose text is the message they were built with). *)
Definition handle (e : exn) (err : string) (digital analog : option string)
  : Run :=
  match e with
  | MalformedPixelError msg =>
      let (err, e') := error msg err in mkRun err digital analog e'
  | P3InvalidHeaderError =>
      let (err, e') := error INVALID_P3_FORMAT err in
      mkRun err digital analog e'
  | PartialPixelError msg =>
      let (err, e') := error msg err in mkRun err digital analog e'
  | ZeroDivisionError => mkRun err digital analog (Uncaught e)
  end.

(** Process the P3 image files in the argument list to create the
    difference images.  [sys.exit(diff)] with a boolean exits with the
    status 1 for [True] and 0 for [False]. *)
Definition main (argv : list string) (env : Env) : Run :=
  let err := "" in
  if check_args argv then
    match open_file (nth FILE_ARG1 argv "") "r" env err with
    | Halt err e => mkRun err None None e
    | Go infile1 err =>
    match open_file (nth FILE_ARG2 argv "") "r" env err with
    | Halt err e => mkRun err None None e
    | Go infile2 err =>
    match (image1 <- Utility.get_image infile1 ;;
           image2 <- Utility.get_image infile2 ;;
           Ok (image1, image2)) with
    | Raise e => handle e err None None
    | Ok (image1, image2) =>
        if negb (Header_eq (header image1) (header image2)) then
          let (err, e) := error (format HEADER_MISMATCH
                                   [header_match_error (header image1)
                                      (header image2)]) err in
          mkRun err None None e
        else
        match open_file OUT_FILE_DIGITAL "w" env err with
        | Halt err e => mkRun err None None e
        | Go out_digital err =>
        match open_file OUT_FILE_ANALOG "w" env err with
        | Halt err e => mkRun err (Some out_digital) None e
        | Go out_analog err =>
            match generate_diffs (pixels image1) (pixels image2)
                    (mkStreams out_digital out_analog err)
                    (header image1) with
            | (s, Ok diff) =>
                mkRun (stderr s) (Some (Ppmdiff.out_digital s))
                  (Some (Ppmdiff.out_analog s))
                  (Exit (if diff then 1 else 0))
            | (s, Raise e) =>
                handle e (stderr s) (Some (Ppmdiff.out_digital s))
                  (Some (Ppmdiff.out_analog s))
            end
        end
        end
    end
    end
    end
  else
    let (err, e) := usage (prog_name argv) err in mkRun err None None e.

End Engine.

End Ppmdiff.

(* ================================================================= *)
(** * Properties *)

Import Py Data Utility Ppmdiff.

(* ================================================================= *)
(** ** Notions used in the statements *)

(** Texts whose characters all satisfy a test; texts without white
    space; decimal digits. *)
Fixpoint string_forall (P : ascii -> bool) (s : string) : bool :=
  match s with
  | "" => true
  | String c s' => P c && string_forall P s'
  end.

Definition nospace (s : string) : bool :=
  string_forall (fun c => negb (isspace c)) s.

Definition is_digit (c : ascii) : bool :=
  match digit c with Some _ => true | None => false end.

(** The number of decimal digits of an integer, and the integers that
    the interpreter reads and prints: those within its limit. *)
Definition ndigits (n : Z) : nat := String.length (str (Z.abs n)).

Definition printable (n : Z) : bool := (ndigits n <=? max_str_digits)%nat.

Definition printable_pixel (p : Pixel) : bool :=
  printable (red p) && printable (green p) && printable (blue p).

Definition printable_header (h : Header) : bool :=
  printable (width h) && printable (height h) && printable (max_color h).

(** A group is well formed when it has three tokens that all denote
    integers. *)
Definition group_ok (g : list string) : bool :=
  (List.length g =? 3)%nat
  && forallb (fun t => match int t with Some _ => true | None => false end) g.

(** The element expression of the comprehension of [get_image]. *)
Definition pixel_at (h : Header) (item : nat * list string) : result Pixel :=
  row <- floordiv (Z.of_nat (fst item)) (width h) ;;
  col <- mod_ (Z.of_nat (fst item)) (width h) ;;
  _create_pixel (snd item) row col.

(** The text each stream receives for one pair of pixels. *)
Definition white_row (h : Header) : string :=
  str (max_color h) ++ " " ++ str (max_color h) ++ " "
  ++ str (max_color h) ++ " " ++ nl.

Definition analog_row (h : Header) (p1 p2 : Pixel) : string :=
  str (max_color h - Z.abs (red p1 - red p2)) ++ " "
  ++ str (max_color h - Z.abs (green p1 - green p2)) ++ " "
  ++ str (max_color h - Z.abs (blue p1 - blue p2)) ++ " " ++ nl.

Definition diagnostic_line (Pixel_str : Pixel -> string) (h : Header)
    (idx : nat) (p1 p2 : Pixel) : string :=
  "pixels at <row=" ++ str (Z.of_nat idx / width h)
  ++ ", col=" ++ str (Z.of_nat idx mod width h) ++ "> differ.  "
  ++ Pixel_str p1 ++ " <-- --> " ++ Pixel_str p2 ++ nl.

Definition digital_text (h : Header) (pp : Pixel * Pixel) : string :=
  if Pixel_eq (fst pp) (snd pp) then white_row h else "0 0 0 " ++ nl.

Definition analog_text (h : Header) (pp : Pixel * Pixel) : string :=
  if Pixel_eq (fst pp) (snd pp) then white_row h
  else analog_row h (fst pp) (snd pp).

Definition stderr_text (Pixel_str : Pixel -> string) (h : Header)
    (item : nat * (Pixel * Pixel)) : string :=
  if Pixel_eq (fst (snd item)) (snd (snd item)) then ""
  else diagnostic_line Pixel_str h (fst item) (fst (snd item))
         (snd (snd item)).

Definition differs (item : nat * (Pixel * Pixel)) : bool :=
  negb (Pixel_eq (fst (snd item)) (snd (snd item))).

(** A rendering of pixels for the concrete runs below ([data.py], which
    defines the one the program uses, is not among the sources). *)
Definition example_Pixel_str (p : Pixel) : string :=
  format "({}, {}, {})" [str (red p); str (green p); str (blue p)].

(** The text of an image, one pixel per line: the three header lines
    and, for each pixel, its three channels. *)
Definition pixel_tokens (p : Pixel) : list string :=
  [str (red p); str (green p); str (blue p)].

Definition pixel_line (p : Pixel) : string :=
  str (red p) ++ " " ++ str (green p) ++ " " ++ str (blue p) ++ nl.

Definition image_text (h : Header) (ps : list Pixel) : string :=
  "P3" ++ nl ++ str (width h) ++ " " ++ str (height h) ++ nl
  ++ str (max_color h) ++ nl ++ String.concat "" (map pixel_line ps).

(** An environment for the concrete runs: three images under the names
    a.ppm, b.ppm and c.ppm, a text with a partial pixel under bad.ppm, a
    text of width 0 under zero.ppm, no other file, and outputs that open. *)
Definition example_env : Env :=
  mkEnv
    (fun name =>
       if (name =? "a.ppm")%string then
         inl (image_text (mkHeader 2 1 255) [mkPixel 255 0 0; mkPixel 0 255 0])
       else if (name =? "b.ppm")%string then
         inl (image_text (mkHeader 2 1 255) [mkPixel 255 0 0; mkPixel 255 0 0])
       else if (name =? "c.ppm")%string then
         inl (image_text (mkHeader 3 1 255) [mkPixel 255 0 0])
       else if (name =? "bad.ppm")%string then
         inl ("P3" ++ nl ++ "2 1" ++ nl ++ "255" ++ nl ++ "1 2" ++ nl)
       else if (name =? "zero.ppm")%string then
         inl ("P3" ++ nl ++ "0 1" ++ nl ++ "255" ++ nl ++ "1 2 3" ++ nl)
       else inr "No such file or directory")
    (fun _ => None).

(** The channels of a list of pixels, as the values of their tokens. *)
Definition channel_values (ps : list Pixel) : list (option Z) :=
  flat_map (fun p => [Some (red p); Some (green p); Some (blue p)]) ps.

(** The pair of pixels the other way round. *)
Definition swap_item (item : nat * (Pixel * Pixel)) : nat * (Pixel * Pixel) :=
  (fst item, (snd (snd item), fst (snd item))).

Ltac eval_digit :=
  match goal with
  | |- context [digit ?c] =>
      let v := eval vm_compute in (digit c) in change (digit c) with v
  end.


(* ================================================================= *)
(** ** Strings and lists *)

Lemma append_assoc (a b c : string) : (a ++ b) ++ c = a ++ b ++ c.
Proof.
  induction a as [|x a IH]; simpl; [reflexivity | now rewrite IH].
Qed.

Lemma append_empty_r (a : string) : a ++ "" = a.
Proof.
  induction a as [|x a IH]; simpl; [reflexivity | now rewrite IH].
Qed.

Ltac flatten_append := repeat (rewrite !append_assoc; simpl).

Lemma concat_empty_cons (x : string) (l : list string) :
  String.concat "" (x :: l) = x ++ String.concat "" l.
Proof.
  destruct l; simpl; [now rewrite append_empty_r | reflexivity].
Qed.

Lemma zip_length {A B} (l1 : list A) (l2 : list B) :
  List.length (zip l1 l2) = Nat.min (List.length l1) (List.length l2).
Proof.
  revert l2; induction l1 as [|x l1 IH]; intros [|y l2]; simpl; auto.
Qed.

Lemma zip_firstn {A B} (n : nat) (l1 : list A) (l2 : list B) :
  zip (firstn n l1) (firstn n l2) = firstn n (zip l1 l2).
Proof.
  revert l1 l2; induction n as [|n IH]; intros [|x l1] [|y l2]; simpl;
    try reflexivity.
  now rewrite IH.
Qed.

Lemma enumerate_from_length {A} (n : nat) (l : list A) :
  List.length (enumerate_from n l) = List.length l.
Proof.
  revert n; induction l as [|x l IH]; intros n; simpl; auto.
Qed.

Lemma enumerate_from_app {A} (n : nat) (l1 l2 : list A) :
  enumerate_from n (l1 ++ l2)%list
  = (enumerate_from n l1 ++ enumerate_from (n + List.length l1) l2)%list.
Proof.
  revert n; induction l1 as [|x l1 IH]; intros n; simpl.
  - now rewrite Nat.add_0_r.
  - now rewrite IH, Nat.add_succ_r.
Qed.


Lemma Pixel_eq_refl (p : Pixel) : Pixel_eq p p = true.
Proof.
  unfold Pixel_eq. now rewrite !Z.eqb_refl.
Qed.

Lemma Pixel_eq_true (p1 p2 : Pixel) : Pixel_eq p1 p2 = true <-> p1 = p2.
Proof.
  unfold Pixel_eq. split.
  - intros H. apply andb_prop in H as [H Hb].
    apply andb_prop in H as [Hr Hg].
    apply Z.eqb_eq in Hr, Hg, Hb.
    destruct p1, p2; simpl in *; congruence.
  - intros ->. now rewrite !Z.eqb_refl.
Qed.

(* ================================================================= *)
(** ** The difference of two pixels *)

(** C9.  The difference of two pixels is symmetric: for all pixels [p1]
    and [p2], [pixel_diff p1 p2] is [pixel_diff p2 p1], channel by
    channel, hence also under the equality of pixels. *)
Theorem pixel_diff_symmetric (p1 p2 : Pixel) :
  pixel_diff p1 p2 = pixel_diff p2 p1
  /\ Pixel_eq (pixel_diff p1 p2) (pixel_diff p2 p1) = true.
Proof.
  assert (E : pixel_diff p1 p2 = pixel_diff p2 p1).
  { unfold pixel_diff. f_equal; lia. }
  split; [exact E | rewrite E; apply Pixel_eq_refl].
Qed.

(* ================================================================= *)
(** ** The reason of a header mismatch *)

(** C5.  The header check reports one reason, chosen by priority: the
    width reason whenever the widths differ, whatever the other fields
    are; else the height reason when the heights differ; else the
    maximum colour reason when those differ; else "nothing differs".
    The four reasons are four different texts. *)
Theorem header_match_error_priority (h1 h2 : Header) :
  (width h1 <> width h2 -> header_match_error h1 h2 = "widths differ")
  /\ (width h1 = width h2 -> height h1 <> height h2 ->
      header_match_error h1 h2 = "heights differ")
  /\ (width h1 = width h2 -> height h1 = height h2 ->
      max_color h1 <> max_color h2 ->
      header_match_error h1 h2 = "color max values differ")
  /\ (width h1 = width h2 -> height h1 = height h2 ->
      max_color h1 = max_color h2 ->
      header_match_error h1 h2 = "nothing differs")
  /\ NoDup [COLUMN_MISMATCH; ROW_MISMATCH; MAX_COLOR_MISMATCH; NO_MISMATCH].
Proof.
  unfold header_match_error.
  repeat split.
  - intros Hw. apply Z.eqb_neq in Hw. rewrite Hw. reflexivity.
  - intros Hw Hh. apply Z.eqb_eq in Hw. apply Z.eqb_neq in Hh.
    rewrite Hw, Hh. reflexivity.
  - intros Hw Hh Hm. apply Z.eqb_eq in Hw, Hh. apply Z.eqb_neq in Hm.
    rewrite Hw, Hh, Hm. reflexivity.
  - intros Hw Hh Hm. apply Z.eqb_eq in Hw, Hh, Hm.
    rewrite Hw, Hh, Hm. reflexivity.
  - repeat constructor; simpl; intuition discriminate.
Qed.

(** The priority at four pairs of headers; the first pair differs in
    width, in height and in maximum colour at once. *)
Lemma header_match_error_priority_witness :
  header_match_error (mkHeader 1 2 3) (mkHeader 4 5 6) = "widths differ"
  /\ header_match_error (mkHeader 1 2 3) (mkHeader 1 5 6) = "heights differ"
  /\ header_match_error (mkHeader 1 2 3) (mkHeader 1 2 6)
     = "color max values differ"
  /\ header_match_error (mkHeader 1 2 3) (mkHeader 1 2 3) = "nothing differs".
Proof.
  split; [| split; [| split]].
  - apply (header_match_error_priority (mkHeader 1 2 3) (mkHeader 4 5 6)).
    simpl; lia.
  - apply (header_match_error_priority (mkHeader 1 2 3) (mkHeader 1 5 6));
      simpl; lia.
  - apply (header_match_error_priority (mkHeader 1 2 3) (mkHeader 1 2 6));
      simpl; lia.
  - apply (header_match_error_priority (mkHeader 1 2 3) (mkHeader 1 2 3));
      simpl; lia.
Defined.

(* ================================================================= *)
(** ** One pair of pixels *)

Lemma process_pair_equal Pixel_str h idx p1 p2 differ s :
  Pixel_eq p1 p2 = true ->
  process_pair Pixel_str h idx p1 p2 differ s
  = (mkStreams (out_digital s ++ white_row h) (out_analog s ++ white_row h)
               (stderr s), Ok differ).
Proof.
  intros E. unfold process_pair. rewrite E.
  unfold to_digital, to_analog, print, white_row; simpl.
  now flatten_append.
Qed.

Lemma process_pair_differ Pixel_str h idx p1 p2 differ s :
  Pixel_eq p1 p2 = false -> width h <> 0 ->
  process_pair Pixel_str h idx p1 p2 differ s
  = (mkStreams (out_digital s ++ "0 0 0 " ++ nl)
               (out_analog s ++ analog_row h p1 p2)
               (stderr s ++ diagnostic_line Pixel_str h idx p1 p2), Ok true).
Proof.
  intros E W. unfold process_pair, floordiv, mod_. rewrite E.
  apply Z.eqb_neq in W. rewrite W.
  unfold to_digital, to_analog, to_stderr, print, analog_row,
    diagnostic_line; simpl.
  now flatten_append.
Qed.

Lemma process_pair_raise Pixel_str h idx p1 p2 differ s :
  Pixel_eq p1 p2 = false -> width h = 0 ->
  process_pair Pixel_str h idx p1 p2 differ s = (s, Raise ZeroDivisionError).
Proof.
  intros E W. unfold process_pair, floordiv. now rewrite E, W.
Qed.

(* ================================================================= *)
(** ** The loop over the pairs *)



(** While the pairs are pairs of equal pixels the loop needs no division:
    it writes one white row per pair to both outputs, leaves the
    diagnostic stream and the flag as they are, and returns. *)
Lemma process_loop_all_equal Pixel_str h items differ s :
  forallb (fun it => Pixel_eq (fst (snd it)) (snd (snd it))) items = true ->
  process_loop Pixel_str h items differ s
  = (mkStreams
       (out_digital s
        ++ String.concat "" (repeat (white_row h) (List.length items)))
       (out_analog s
        ++ String.concat "" (repeat (white_row h) (List.length items)))
       (stderr s),
     Ok differ).
Proof.
  revert s.
  induction items as [|[idx [p1 p2]] items IH]; intros s H.
  - simpl. rewrite !append_empty_r. now destruct s.
  - cbn [forallb fst snd] in H. apply andb_prop in H as [E H].
    cbn [process_loop List.length repeat].
    rewrite process_pair_equal by exact E.
    rewrite IH by exact H. cbn [out_digital out_analog stderr].
    now rewrite !concat_empty_cons, !append_assoc.
Qed.

(** The loop returns, unless the width is zero and some pair differs. *)
Lemma process_loop_outcome Pixel_str h items differ s :
  (exists d, snd (process_loop Pixel_str h items differ s) = Ok d)
  \/ (snd (process_loop Pixel_str h items differ s) = Raise ZeroDivisionError
      /\ width h = 0 /\ existsb differs items = true).
Proof.
  revert differ s.
  induction items as [|[idx [p1 p2]] items IH]; intros differ s.
  - left. now exists differ.
  - cbn [process_loop existsb]. unfold differs at 1. cbn [fst snd].
    destruct (Pixel_eq p1 p2) eqn:E; cbn [negb orb].
    + rewrite process_pair_equal by exact E. apply IH.
    + destruct (Z.eq_dec (width h) 0) as [W | W].
      * rewrite process_pair_raise by assumption. right. auto.
      * rewrite process_pair_differ by assumption.
        destruct (IH true
                    (mkStreams (out_digital s ++ "0 0 0 " ++ nl)
                       (out_analog s ++ analog_row h p1 p2)
                       (stderr s ++ diagnostic_line Pixel_str h idx p1 p2)))
          as [Hok | [_ [W' _]]]; [now left | contradiction].
Qed.

Lemma existsb_differs_enumerate_from n (l : list (Pixel * Pixel)) :
  existsb differs (enumerate_from n l)
  = existsb (fun '(pixel1, pixel2) => negb (Pixel_eq pixel1 pixel2)) l.
Proof.
  revert n; induction l as [|[p1 p2] l IH]; intros n; simpl;
    [reflexivity | now rewrite IH].
Qed.


Lemma forallb_equal_enumerate_same n (ps : list Pixel) :
  forallb (fun it : nat * (Pixel * Pixel) =>
             Pixel_eq (fst (snd it)) (snd (snd it)))
          (enumerate_from n (zip ps ps)) = true.
Proof.
  revert n; induction ps as [|p ps IH]; intros n; simpl;
    [reflexivity | now rewrite Pixel_eq_refl, IH].
Qed.

(* ================================================================= *)
(** ** The header of the two outputs *)

(** The header is written as the three blocks "P3", "{width} {height}"
    and "{max_color}", each followed by an empty line. *)
Lemma write_header_text (out : string) (h : Header) :
  write_header out h
  = out ++ "P3" ++ nl ++ nl
    ++ str (width h) ++ " " ++ str (height h) ++ nl ++ nl
    ++ str (max_color h) ++ nl ++ nl.
Proof.
  unfold write_header, print. simpl. now flatten_append.
Qed.

(* ================================================================= *)
(** ** An image against itself *)

(** C7.  Diffing a list of pixels against itself, under any header and
    from any state of the streams, returns that no difference was found,
    writes nothing to the diagnostic stream, and writes to the digital
    and to the analog output one row per pixel, each row being
    "{max_color} {max_color} {max_color} "; so does the generation of
    the two images, after the header it writes to each output. *)
Theorem diff_against_itself (Pixel_str : Pixel -> string)
    (ps : list Pixel) (s : Streams) (h : Header) :
  process_pixels Pixel_str ps ps s h
  = (mkStreams
       (out_digital s
        ++ String.concat ""
             (repeat (str (max_color h) ++ " " ++ str (max_color h) ++ " "
                      ++ str (max_color h) ++ " " ++ nl) (List.length ps)))
       (out_analog s
        ++ String.concat ""
             (repeat (str (max_color h) ++ " " ++ str (max_color h) ++ " "
                      ++ str (max_color h) ++ " " ++ nl) (List.length ps)))
       (stderr s),
     Ok false)
  /\ generate_diffs Pixel_str ps ps s h
     = (mkStreams
          (write_header (out_digital s) h
           ++ String.concat ""
                (repeat (str (max_color h) ++ " " ++ str (max_color h) ++ " "
                         ++ str (max_color h) ++ " " ++ nl) (List.length ps)))
          (write_header (out_analog s) h
           ++ String.concat ""
                (repeat (str (max_color h) ++ " " ++ str (max_color h) ++ " "
                         ++ str (max_color h) ++ " " ++ nl) (List.length ps)))
          (stderr s),
        Ok false).
Proof.
  assert (P : forall s0,
             process_pixels Pixel_str ps ps s0 h
             = (mkStreams
                  (out_digital s0
                   ++ String.concat "" (repeat (white_row h) (List.length ps)))
                  (out_analog s0
                   ++ String.concat "" (repeat (white_row h) (List.length ps)))
                  (stderr s0),
                Ok false)).
  { intros s0. unfold process_pixels, enumerate.
    rewrite process_loop_all_equal by apply forallb_equal_enumerate_same.
    now rewrite enumerate_from_length, zip_length, Nat.min_id. }
  split.
  - apply P.
  - unfold generate_diffs. cbv zeta. rewrite P. reflexivity.
Qed.

(* ================================================================= *)
(** ** Lists of unequal length *)

(** When the two lists of pixels have unequal lengths, the engine
    processes [min (len pixels1) (len pixels2)] pairs, and its whole
    outcome (the three streams, the flag, a possible exception) is the
    outcome on the two prefixes of that length: the trailing pixels of
    the longer list have no effect at all.  No error comes from the
    lengths: the engine returns, unless the width is zero and a compared
    pair differs. *)
Lemma process_pixels_unequal_lengths (Pixel_str : Pixel -> string)
    (ps1 ps2 : list Pixel) (s : Streams) (h : Header) :
  let n := Nat.min (List.length ps1) (List.length ps2) in
  List.length (enumerate (zip ps1 ps2)) = n
  /\ process_pixels Pixel_str ps1 ps2 s h
     = process_pixels Pixel_str (firstn n ps1) (firstn n ps2) s h
  /\ ((exists differ, snd (process_pixels Pixel_str ps1 ps2 s h) = Ok differ)
      \/ (snd (process_pixels Pixel_str ps1 ps2 s h) = Raise ZeroDivisionError
          /\ width h = 0
          /\ existsb (fun '(pixel1, pixel2) => negb (Pixel_eq pixel1 pixel2))
               (zip (firstn n ps1) (firstn n ps2)) = true)).
Proof.
  intros n.
  assert (Z : zip (firstn n ps1) (firstn n ps2) = zip ps1 ps2).
  { rewrite zip_firstn. apply firstn_all2. rewrite zip_length. reflexivity. }
  split; [| split].
  - unfold enumerate. now rewrite enumerate_from_length, zip_length.
  - unfold process_pixels. now rewrite Z.
  - rewrite Z. unfold process_pixels, enumerate.
    rewrite <- (existsb_differs_enumerate_from 0).
    apply process_loop_outcome.
Qed.


(* ================================================================= *)
(** ** The digital row of a differing pair *)


(* ================================================================= *)
(** ** The diagnostic line of a differing pair *)




(* ================================================================= *)
(** ** The worked example *)

(** C1, as the specification states it, fails: for the second pixel the
    analog row is not "255 0 255 ". *)
Lemma worked_example_counterexample :
  out_analog (fst (process_pixels example_Pixel_str
                     [mkPixel 255 0 0; mkPixel 0 255 0]
                     [mkPixel 255 0 0; mkPixel 255 0 0]
                     (mkStreams "" "" "") (mkHeader 2 1 255)))
  <> "255 255 255 " ++ nl ++ "255 0 255 " ++ nl.
Proof.
  vm_compute. discriminate.
Qed.

(** The two images of the example, decoded from their texts. *)
Example example_images_decode :
  get_image ("P3" ++ nl ++ "2 1" ++ nl ++ "255" ++ nl
             ++ "255 0 0 0 255 0" ++ nl)
  = Ok (mkImage (mkHeader 2 1 255) [mkPixel 255 0 0; mkPixel 0 255 0])
  /\ get_image ("P3" ++ nl ++ "2 1" ++ nl ++ "255" ++ nl
                ++ "255 0 0 255 0 0" ++ nl)
     = Ok (mkImage (mkHeader 2 1 255) [mkPixel 255 0 0; mkPixel 255 0 0]).
Proof.
  split; vm_compute; reflexivity.
Qed.

(** C1, amended.  With the header width 2, height 1, maximum colour 255,
    diffing the pixels (255,0,0), (0,255,0) against (255,0,0), (255,0,0)
    writes the white row "255 255 255 " to both outputs for pixel 0; for
    pixel 1 it writes the digital row "0 0 0 ", the analog row
    "0 0 255 " and one diagnostic line that names row 0 and column 1;
    and it returns that a difference was found. *)
Theorem worked_example (Pixel_str : Pixel -> string) :
  process_pixels Pixel_str
    [mkPixel 255 0 0; mkPixel 0 255 0]
    [mkPixel 255 0 0; mkPixel 255 0 0]
    (mkStreams "" "" "") (mkHeader 2 1 255)
  = (mkStreams
       ("255 255 255 " ++ nl ++ "0 0 0 " ++ nl)
       ("255 255 255 " ++ nl ++ "0 0 255 " ++ nl)
       ("pixels at <row=0, col=1> differ.  "
        ++ Pixel_str (mkPixel 0 255 0) ++ " <-- --> "
        ++ Pixel_str (mkPixel 255 0 0) ++ nl),
     Ok true).
Proof.
  unfold process_pixels, enumerate. cbn [zip enumerate_from process_loop].
  rewrite process_pair_equal by reflexivity.
  rewrite process_pair_differ by (try reflexivity; simpl; lia).
  reflexivity.
Qed.

(* ================================================================= *)
(** ** Lines *)

Lemma length_append (a b : string) :
  String.length (a ++ b) = (String.length a + String.length b)%nat.
Proof.
  induction a as [|c a IH]; simpl; [reflexivity | now rewrite IH].
Qed.

(** Reading a line splits the text in two, and takes something when
    the text is not empty. *)
Lemma readline_split (f : string) :
  f = fst (readline f) ++ snd (readline f)
  /\ (f <> "" -> fst (readline f) <> "").
Proof.
  induction f as [|c f [IH1 IH2]]; simpl; [split; congruence |].
  destruct (Ascii.eqb c LF); simpl.
  - split; [reflexivity | discriminate].
  - destruct (readline f) as [line rest]; simpl in *. split.
    + now rewrite <- IH1.
    + discriminate.
Qed.

(** Joining the remaining lines gives back the remaining text: the
    tokens of the pixels are the tokens of the text after the header. *)
Lemma join_readlines (f : string) : join "" (readlines f) = f.
Proof.
  unfold join, readlines.
  assert (G : forall fuel f, (String.length f <= fuel)%nat ->
                String.concat "" (readlines_fuel fuel f) = f).
  { clear f. induction fuel as [|fuel IH]; intros f Hf.
    - destruct f; [reflexivity | simpl in Hf; lia].
    - destruct f as [|c f]; [reflexivity |].
      cbn [readlines_fuel].
      destruct (readline_split (String c f)) as [E L].
      destruct (readline (String c f)) as [line rest]; cbn [fst snd] in *.
      rewrite concat_empty_cons, IH.
      + now rewrite <- E.
      + assert (Hn : String c f <> "") by discriminate.
        specialize (L Hn). rewrite E, length_append in Hf.
        destruct line; [contradiction | simpl in Hf; lia]. }
  now apply G.
Qed.

(* ================================================================= *)
(** ** Groups of three tokens *)

Lemma range_fuel_enough (step stop : nat) :
  (0 < step)%nat ->
  forall f1 f2 start : nat,
    (stop - start <= f1)%nat -> (stop - start <= f2)%nat ->
    range_fuel f1 start stop step = range_fuel f2 start stop step.
Proof.
  intros Hstep. induction f1 as [|f1 IH]; intros f2 start H1 H2.
  - destruct f2 as [|f2]; simpl; [reflexivity |].
    destruct (Nat.ltb_spec start stop); [lia | reflexivity].
  - destruct f2 as [|f2]; simpl.
    + destruct (Nat.ltb_spec start stop); [lia | reflexivity].
    + destruct (Nat.ltb_spec start stop); [| reflexivity].
      f_equal. apply IH; lia.
Qed.

Lemma range_fuel_shift (fuel start stop step k : nat) :
  range_fuel fuel (start + k) (stop + k) step
  = map (fun i => (i + k)%nat) (range_fuel fuel start stop step).
Proof.
  revert start; induction fuel as [|fuel IH]; intros start; simpl;
    [reflexivity |].
  destruct (Nat.ltb_spec start stop), (Nat.ltb_spec (start + k) (stop + k));
    try lia; [| reflexivity].
  simpl. f_equal.
  replace (start + k + step)%nat with (start + step + k)%nat by lia.
  apply IH.
Qed.

Lemma range_3_step (n : nat) :
  range 0 (S (S (S n))) 3 = 0%nat :: map (fun i => (i + 3)%nat) (range 0 n 3).
Proof.
  unfold range.
  change (range_fuel (S (S (S n))) 0 (S (S (S n))) 3)
    with (0%nat :: range_fuel (S (S n)) 3 (S (S (S n))) 3).
  f_equal.
  rewrite (range_fuel_enough 3 (S (S (S n))) ltac:(lia) (S (S n)) n 3)
    by lia.
  replace (S (S (S n))) with (n + 3)%nat by lia.
  apply (range_fuel_shift n 0 n 3 3).
Qed.

(** The groups, by recursion on the tokens: three tokens at a time, and
    what is left, if anything, as a last and shorter group. *)
Lemma groups_of_3_cons (a b c : string) (l : list string) :
  _groups_of_3 (a :: b :: c :: l) = [a; b; c] :: _groups_of_3 l.
Proof.
  unfold _groups_of_3. cbn [List.length]. rewrite range_3_step.
  cbn [map]. f_equal. rewrite map_map. apply map_ext. intros i.
  unfold slice.
  replace (i + 3 + 3 - (i + 3))%nat with (i + 3 - i)%nat by lia.
  replace (i + 3)%nat with (S (S (S i))) at 2 by lia.
  reflexivity.
Qed.

Lemma groups_of_3_short (l : list string) :
  (0 < List.length l < 3)%nat -> _groups_of_3 l = [l].
Proof.
  destruct l as [|a [|b [|c l]]]; simpl; intros H; try lia; reflexivity.
Qed.

(** Every group but the last has three tokens, and the last has from
    one to three. *)
Lemma groups_of_3_lengths (l : list string) :
  forall gs1 g gs2,
    _groups_of_3 l = (gs1 ++ g :: gs2)%list ->
    (1 <= List.length g <= 3)%nat
    /\ (gs2 <> [] -> List.length g = 3%nat).
Proof.
  assert (G : forall n l, (List.length l <= n)%nat ->
              forall gs1 g gs2,
                _groups_of_3 l = (gs1 ++ g :: gs2)%list ->
                (1 <= List.length g <= 3)%nat
                /\ (gs2 <> [] -> List.length g = 3%nat)).
  { clear l. induction n as [|n IH]; intros l Hn gs1 g gs2 E.
    - destruct l; [| simpl in Hn; lia].
      destruct gs1; discriminate E.
    - destruct l as [|a [|b [|c l]]].
      + destruct gs1; discriminate E.
      + destruct gs1 as [|g1 gs1]; [| destruct gs1; discriminate E].
        injection E as <- <-. simpl. split; [lia | congruence].
      + destruct gs1 as [|g1 gs1]; [| destruct gs1; discriminate E].
        injection E as <- <-. simpl. split; [lia | congruence].
      + rewrite groups_of_3_cons in E.
        destruct gs1 as [|g1 gs1].
        * injection E as <- _. simpl. split; [lia | reflexivity].
        * injection E as _ E.
          apply (IH l ltac:(simpl in Hn; lia) gs1 g gs2 E). }
  apply (G (List.length l)). lia.
Qed.

(* ================================================================= *)
(** ** The comprehension of [get_image] *)

Lemma comprehension_ext {A B} (f g : A -> result B) (l : list A) :
  (forall x, f x = g x) -> comprehension f l = comprehension g l.
Proof.
  intros E. induction l as [|x l IH]; simpl; [reflexivity |].
  now rewrite E, IH.
Qed.

Lemma get_image_unfold (infile : string) :
  get_image infile
  = ('(h, rest) <- _read_header infile ;;
     pixels <- comprehension (pixel_at h)
                 (enumerate (_groups_of_3 (split rest))) ;;
     Ok (mkImage h pixels)).
Proof.
  unfold get_image. destruct (_read_header infile) as [[h rest]|e];
    [| reflexivity].
  cbn [bind]. rewrite join_readlines.
  rewrite (comprehension_ext _ (pixel_at h)); [reflexivity |].
  now intros [idx group].
Qed.

Lemma comprehension_first_failure {A B} (f : A -> result B)
    (l1 : list A) (x : A) (l2 : list A) (e : exn) :
  Forall (fun y => exists b, f y = Ok b) l1 ->
  f x = Raise e ->
  comprehension f (l1 ++ x :: l2)%list = Raise e.
Proof.
  intros H Hx. induction H as [|y l1 [b Hy] _ IH]; simpl.
  - now rewrite Hx.
  - now rewrite Hy, IH.
Qed.

Lemma comprehension_failure {A B} (f : A -> result B) (l : list A) (e : exn) :
  comprehension f l = Raise e -> exists x, In x l /\ f x = Raise e.
Proof.
  induction l as [|x l IH]; simpl; [discriminate |].
  destruct (f x) as [y|e'] eqn:Hx; simpl.
  - destruct (comprehension f l) as [ys|e'']; simpl; [discriminate |].
    intros [= ->]. destruct (IH eq_refl) as [x' [Hin Hx']].
    exists x'. auto.
  - intros [= ->]. exists x. auto.
Qed.

Lemma create_pixel_partial (values : list string) (row col : Z) :
  (List.length values < 3)%nat ->
  _create_pixel values row col
  = Raise (PartialPixelError
             ("partial pixel at <row=" ++ str row ++ ", col=" ++ str col
              ++ ">")).
Proof.
  intros H. unfold _create_pixel.
  apply Nat.ltb_lt in H. now rewrite H.
Qed.

Lemma create_pixel_malformed (values : list string) (row col : Z) :
  (3 <= List.length values)%nat ->
  int (nth 0 values "") = None \/ int (nth 1 values "") = None
  \/ int (nth 2 values "") = None ->
  _create_pixel values row col
  = Raise (MalformedPixelError
             ("invalid pixel at <row=" ++ str row ++ ", col=" ++ str col
              ++ ">")).
Proof.
  intros H Hbad. unfold _create_pixel, _convert_int.
  apply Nat.ltb_ge in H. rewrite H.
  destruct (int (nth 0 values "")), (int (nth 1 values "")),
    (int (nth 2 values "")); try reflexivity.
  destruct Hbad as [Hb | [Hb | Hb]]; discriminate Hb.
Qed.

Lemma create_pixel_ok (values : list string) (row col : Z) :
  group_ok values = true ->
  exists r g b,
    int (nth 0 values "") = Some r /\ int (nth 1 values "") = Some g
    /\ int (nth 2 values "") = Some b
    /\ _create_pixel values row col = Ok (mkPixel r g b).
Proof.
  unfold group_ok. intros H. apply andb_prop in H as [Hlen Hall].
  destruct values as [|v0 [|v1 [|v2 [|v3 values]]]]; try discriminate Hlen.
  cbn [forallb] in Hall.
  unfold _create_pixel, _convert_int. cbn [List.length Nat.ltb Nat.leb nth].
  destruct (int v0) as [r|]; [| discriminate Hall].
  destruct (int v1) as [g|]; [| discriminate Hall].
  destruct (int v2) as [b|]; [| discriminate Hall].
  exists r, g, b. auto.
Qed.

Lemma create_pixel_failure (values : list string) (row col : Z) (e : exn) :
  _create_pixel values row col = Raise e ->
  (exists msg, e = PartialPixelError msg)
  \/ (exists msg, e = MalformedPixelError msg).
Proof.
  unfold _create_pixel.
  destruct (List.length values <? 3)%nat.
  - intros [= <-]. left. eexists. reflexivity.
  - destruct (_convert_int (nth 0 values "") None),
      (_convert_int (nth 1 values "") None),
      (_convert_int (nth 2 values "") None);
      try discriminate; intros [= <-]; right; eexists; reflexivity.
Qed.

Lemma pixel_at_nonzero (h : Header) (item : nat * list string) :
  width h <> 0 ->
  pixel_at h item
  = _create_pixel (snd item) (Z.of_nat (fst item) / width h)
      (Z.of_nat (fst item) mod width h).
Proof.
  intros W. unfold pixel_at, floordiv, mod_.
  apply Z.eqb_neq in W. now rewrite W.
Qed.

Lemma pixel_at_zero (h : Header) (item : nat * list string) :
  width h = 0 -> pixel_at h item = Raise ZeroDivisionError.
Proof.
  intros W. unfold pixel_at, floordiv. now rewrite W.
Qed.

Lemma convert_dimensions_failure (dimension_str : string) (e : exn) :
  _convert_dimensions dimension_str = Raise e -> e = P3InvalidHeaderError.
Proof.
  unfold _convert_dimensions. cbv zeta.
  destruct (List.length (split dimension_str) =? 2)%nat;
    [| now intros [= <-]].
  destruct (_convert_int (nth 0 (split dimension_str) "") None),
    (_convert_int (nth 1 (split dimension_str) "") None);
    try discriminate; now intros [= <-].
Qed.

Lemma convert_color_failure (color_str : string) (e : exn) :
  _convert_color color_str = Raise e -> e = P3InvalidHeaderError.
Proof.
  unfold _convert_color.
  destruct (_convert_int color_str None); [discriminate | now intros [= <-]].
Qed.

Lemma read_header_failure (infile : string) (e : exn) :
  _read_header infile = Raise e -> e = P3InvalidHeaderError.
Proof.
  unfold _read_header.
  destruct (readline infile) as [first_ f1].
  destruct (readline f1) as [second_ f2].
  destruct (readline f2) as [third_ f3].
  destruct (negb _ || _ || _); [now intros [= <-] |].
  destruct (_convert_dimensions (strip second_)) as [[w hh]|e1] eqn:Hd.
  - cbn [bind].
    destruct (_convert_color (strip third_)) as [m|e2] eqn:Hc.
    + discriminate.
    + cbn [bind]. intros [= <-]. now apply convert_color_failure in Hc.
  - cbn [bind]. intros [= <-]. now apply convert_dimensions_failure in Hd.
Qed.

(* ================================================================= *)
(** ** The failures of the decoder *)

(** X2.  On a text that the stream delivers, the decoder fails with one of
    its three errors, or, when the header declares the width 0 and at
    least one token follows it, with the interpreter's
    [ZeroDivisionError]. *)
Lemma get_image_failures (infile : string) (e : exn) :
  get_image infile = Raise e ->
  e = P3InvalidHeaderError
  \/ (exists msg, e = PartialPixelError msg)
  \/ (exists msg, e = MalformedPixelError msg)
  \/ (e = ZeroDivisionError
      /\ exists h rest, _read_header infile = Ok (h, rest) /\ width h = 0
                        /\ split rest <> []).
Proof.
  rewrite get_image_unfold.
  destruct (_read_header infile) as [[h rest]|e1] eqn:Hh; cbn [bind].
  - destruct (comprehension _ _) as [ps|e2] eqn:Hc; cbn [bind];
      [discriminate |].
    intros [= ->]. apply comprehension_failure in Hc as [item [Hin Hitem]].
    destruct (Z.eq_dec (width h) 0) as [W | W].
    + rewrite pixel_at_zero in Hitem by exact W. injection Hitem as <-.
      right; right; right. split; [reflexivity |].
      exists h, rest. repeat split; [exact W |].
      intros Hnil. rewrite Hnil in Hin. exact Hin.
    + rewrite pixel_at_nonzero in Hitem by exact W.
      apply create_pixel_failure in Hitem. tauto.
  - intros [= ->]. left. now apply read_header_failure in Hh.
Qed.

(** C3.  A text whose header declares the width 0 and that has pixel
    tokens makes the decoder fail with [ZeroDivisionError], which is
    none of its three errors: the row of the first group is computed
    before the group is looked at. *)
Theorem get_image_zero_width_failure :
  get_image ("P3" ++ nl ++ "0 1" ++ nl ++ "255" ++ nl ++ "1 2 3" ++ nl)
  = Raise ZeroDivisionError.
Proof.
  vm_compute. reflexivity.
Qed.

(* ================================================================= *)
(** ** The errors of a group of tokens *)

(** X3.  With a declared width that is not zero, the first group that is not
    well formed decides the failure: at the group position [idx] the
    decoder fails with the partial pixel error when the group has fewer
    than three tokens, whatever the tokens are, and with the malformed
    pixel error when it has three tokens of which one does not denote
    an integer; both name row [idx // width] and column [idx % width]. *)
Lemma pixel_group_errors (infile rest : string) (h : Header)
    (groups1 : list (list string)) (group : list string)
    (groups2 : list (list string)) :
  _read_header infile = Ok (h, rest) ->
  width h <> 0 ->
  _groups_of_3 (split rest) = (groups1 ++ group :: groups2)%list ->
  forallb group_ok groups1 = true ->
  let idx := Z.of_nat (List.length groups1) in
  ((List.length group < 3)%nat ->
   get_image infile
   = Raise (PartialPixelError
              ("partial pixel at <row=" ++ str (idx / width h)
               ++ ", col=" ++ str (idx mod width h) ++ ">")))
  /\ ((List.length group = 3)%nat ->
      existsb (fun t => match int t with Some _ => false | None => true end)
        group = true ->
      get_image infile
      = Raise (MalformedPixelError
                 ("invalid pixel at <row=" ++ str (idx / width h)
                  ++ ", col=" ++ str (idx mod width h) ++ ">"))).
Proof.
  intros Hh W Hg Hok idx.
  assert (Hpre : Forall (fun y => exists b, pixel_at h y = Ok b)
                   (enumerate_from 0 groups1)).
  { clear Hg. generalize 0%nat as n.
    induction groups1 as [|g gs IH]; intros n; simpl; constructor.
    - cbn [forallb] in Hok. apply andb_prop in Hok as [Hg _].
      rewrite pixel_at_nonzero by exact W. cbn [fst snd].
      destruct (create_pixel_ok g (Z.of_nat n / width h)
                  (Z.of_nat n mod width h) Hg) as [r [g' [b [_ [_ [_ E]]]]]].
      eexists. exact E.
    - cbn [forallb] in Hok. apply andb_prop in Hok as [_ Hgs].
      apply IH. exact Hgs. }
  assert (Hfail : forall e,
             pixel_at h (List.length groups1, group) = Raise e ->
             get_image infile = Raise e).
  { intros e He. rewrite get_image_unfold, Hh. cbn [bind].
    rewrite Hg. unfold enumerate. rewrite enumerate_from_app.
    cbn [enumerate_from Nat.add].
    rewrite (comprehension_first_failure _ _ _ _ e Hpre He). reflexivity. }
  split.
  - intros Hlen. apply Hfail. rewrite pixel_at_nonzero by exact W.
    cbn [fst snd]. now apply create_pixel_partial.
  - intros Hlen Hbad. apply Hfail. rewrite pixel_at_nonzero by exact W.
    cbn [fst snd]. apply create_pixel_malformed; [lia |].
    destruct group as [|v0 [|v1 [|v2 [|v3 group]]]]; try discriminate Hlen.
    cbn [existsb nth] in *.
    destruct (int v0); [| now left].
    destruct (int v1); [| now right; left].
    destruct (int v2); [| now right; right].
    discriminate Hbad.
Qed.

(** C6.  Under a header that declares the width 0, a last group of two
    tokens makes the decoder fail with [ZeroDivisionError] and not with
    the partial pixel error, and a group with a token that is no integer
    makes it fail with [ZeroDivisionError] and not with the malformed
    pixel error. *)
Theorem pixel_group_zero_width_failure :
  get_image ("P3" ++ nl ++ "0 1" ++ nl ++ "255" ++ nl ++ "1 2" ++ nl)
  = Raise ZeroDivisionError
  /\ get_image ("P3" ++ nl ++ "0 1" ++ nl ++ "255" ++ nl ++ "1 xx 3" ++ nl)
     = Raise ZeroDivisionError.
Proof.
  split; vm_compute; reflexivity.
Qed.

(* ================================================================= *)
(** ** Texts without white space *)

Lemma string_forall_impl (P Q : ascii -> bool) (s : string) :
  (forall c, P c = true -> Q c = true) ->
  string_forall P s = true -> string_forall Q s = true.
Proof.
  intros PQ. induction s as [|c s IH]; simpl; [reflexivity |].
  intros H. apply andb_prop in H as [Hc Hs].
  now rewrite (PQ c Hc), IH.
Qed.

Lemma is_digit_nospace (c : ascii) :
  is_digit c = true -> negb (isspace c) = true.
Proof.
  destruct c as [[] [] [] [] [] [] [] []]; vm_compute; congruence.
Qed.

Lemma nospace_no_LF (c : ascii) :
  negb (isspace c) = true -> negb (Ascii.eqb c LF) = true.
Proof.
  destruct (Ascii.eqb_spec c LF) as [-> |]; [discriminate | reflexivity].
Qed.

Lemma rstrip_nospace (s : string) : nospace s = true -> rstrip s = s.
Proof.
  unfold nospace. induction s as [|c s IH]; simpl; [reflexivity |].
  intros H. apply andb_prop in H as [Hc Hs]. rewrite IH by exact Hs.
  apply negb_true_iff in Hc. rewrite Hc. now destruct s.
Qed.

Lemma rstrip_space (ws : string) :
  string_forall isspace ws = true -> rstrip ws = "".
Proof.
  induction ws as [|c ws IH]; simpl; [reflexivity |].
  intros H. apply andb_prop in H as [Hc Hs]. now rewrite IH, Hc.
Qed.

Lemma rstrip_app_space (a ws : string) :
  string_forall isspace ws = true -> rstrip (a ++ ws) = rstrip a.
Proof.
  intros H. induction a as [|c a IH]; simpl.
  - now apply rstrip_space.
  - now rewrite IH.
Qed.

Lemma rstrip_app_nospace (a b : string) :
  nospace b = true -> b <> "" -> rstrip (a ++ b) = a ++ b.
Proof.
  intros Hb Hne. induction a as [|c a IH]; simpl.
  - now apply rstrip_nospace.
  - rewrite IH. destruct (a ++ b) eqn:E; [| reflexivity].
    destruct a; simpl in E; [contradiction | discriminate].
Qed.

Lemma lstrip_nospace (a b : string) :
  nospace a = true -> a <> "" -> lstrip (a ++ b) = a ++ b.
Proof.
  destruct a as [|c a]; [contradiction |].
  unfold nospace. simpl. intros H _. apply andb_prop in H as [Hc _].
  apply negb_true_iff in Hc. now rewrite Hc.
Qed.

Lemma strip_nospace (s : string) : nospace s = true -> strip s = s.
Proof.
  intros H. unfold strip. destruct s as [|c s]; [reflexivity |].
  rewrite <- (append_empty_r (String c s)).
  rewrite lstrip_nospace by (exact H || discriminate).
  rewrite append_empty_r. now apply rstrip_nospace.
Qed.

Lemma readline_app (a rest : string) :
  string_forall (fun c => negb (Ascii.eqb c LF)) a = true ->
  readline (a ++ String LF rest) = (a ++ nl, rest).
Proof.
  induction a as [|c a IH]; simpl; [reflexivity |].
  intros H. apply andb_prop in H as [Hc Ha].
  apply negb_true_iff in Hc. now rewrite Hc, IH.
Qed.

Lemma split_from_nospace (cur a t : string) :
  nospace a = true -> split_from cur (a ++ t) = split_from (cur ++ a) t.
Proof.
  unfold nospace. revert cur. induction a as [|c a IH]; intros cur; simpl.
  - now rewrite append_empty_r.
  - intros H. apply andb_prop in H as [Hc Ha].
    apply negb_true_iff in Hc. rewrite Hc, IH by exact Ha.
    now rewrite append_assoc.
Qed.

Lemma split_from_token (b : string) :
  nospace b = true -> b <> "" -> split_from "" b = [b].
Proof.
  intros Hb Hbe.
  replace (split_from "" b) with (split_from "" (b ++ ""))
    by now rewrite append_empty_r.
  rewrite split_from_nospace by exact Hb. simpl.
  destruct b; [contradiction | reflexivity].
Qed.

Lemma split_two_tokens (a b : string) :
  nospace a = true -> a <> "" -> nospace b = true -> b <> "" ->
  split (a ++ " " ++ b) = [a; b].
Proof.
  intros Ha Hae Hb Hbe. unfold split.
  rewrite split_from_nospace by exact Ha. simpl.
  destruct a as [|c a]; [contradiction |].
  now rewrite split_from_token.
Qed.

(* ================================================================= *)
(** ** Decimal numerals *)

Lemma int_digits_pos (d : uint) (p : positive) :
  int_digits true (Z.pos p) (NilEmpty.string_of_uint d)
  = Some (Z.pos (Pos.of_uint_acc d p)).
Proof.
  revert p; induction d; intros p;
    cbn [NilEmpty.string_of_uint int_digits Pos.of_uint_acc];
    try reflexivity; eval_digit; cbv iota beta;
    rewrite <- IHd; f_equal; lia.
Qed.

Lemma int_digits_zero (d : uint) :
  int_digits true 0 (NilEmpty.string_of_uint d) = Some (Z.of_uint d).
Proof.
  induction d; cbn [NilEmpty.string_of_uint int_digits];
    try reflexivity; eval_digit; cbv iota beta;
    try exact IHd; apply int_digits_pos.
Qed.

Lemma int_digits_first (c : ascii) (s : string) (acc : Z) :
  is_digit c = true ->
  int_digits false acc (String c s) = int_digits true acc (String c s).
Proof.
  unfold is_digit. simpl. now destruct (digit c).
Qed.

Lemma string_of_uint_digits (d : uint) :
  string_forall is_digit (NilEmpty.string_of_uint d) = true.
Proof.
  induction d; simpl; auto.
Qed.

Lemma str_nospace (n : Z) : nospace (str n) = true.
Proof.
  assert (D : forall d, nospace (NilZero.string_of_uint d) = true).
  { intros d. unfold nospace.
    apply (string_forall_impl is_digit); [apply is_digit_nospace |].
    destruct d; try apply string_of_uint_digits. reflexivity. }
  unfold str. destruct n as [|p|p]; cbn [Z.to_int NilZero.string_of_int].
  - reflexivity.
  - apply D.
  - unfold nospace. cbn [string_forall].
    apply andb_true_intro. split; [reflexivity | apply D].
Qed.

Lemma str_nonempty (n : Z) : str n <> "".
Proof.
  unfold str. destruct n as [|p|p]; simpl; try discriminate.
  pose proof (DecimalPos.Unsigned.to_uint_nonnil p) as H.
  destruct (Pos.to_uint p); simpl; congruence.
Qed.

Lemma isspace_int_isspace (c : ascii) :
  isspace c = false -> isspace_int c = false.
Proof.
  destruct c as [[] [] [] [] [] [] [] []]; vm_compute; congruence.
Qed.

Lemma rstrip_int_nospace (s : string) : nospace s = true -> rstrip_int s = s.
Proof.
  unfold nospace. induction s as [|c s IH]; simpl; [reflexivity |].
  intros H. apply andb_prop in H as [Hc Hs]. rewrite IH by exact Hs.
  apply negb_true_iff in Hc. rewrite (isspace_int_isspace c Hc).
  now destruct s.
Qed.

Lemma strip_int_nospace (s : string) :
  nospace s = true -> rstrip_int (lstrip_int s) = s.
Proof.
  intros H. destruct s as [|c s]; [reflexivity |].
  assert (Hc : isspace_int c = false).
  { unfold nospace in H. simpl in H. apply andb_prop in H as [Hc _].
    apply negb_true_iff in Hc. now apply isspace_int_isspace. }
  cbn [lstrip_int]. rewrite Hc. now apply rstrip_int_nospace.
Qed.

Lemma count_digits_all (s : string) :
  string_forall is_digit s = true -> count_digits s = String.length s.
Proof.
  unfold is_digit. induction s as [|c s IH]; simpl; [reflexivity |].
  destruct (digit c); [| discriminate].
  intros H. now rewrite IH.
Qed.

Lemma string_of_uint_all_digits (d : uint) :
  string_forall is_digit (NilZero.string_of_uint d) = true.
Proof.
  destruct d; try apply string_of_uint_digits. reflexivity.
Qed.

(** The digits of the numeral of an integer. *)
Lemma count_digits_str (n : Z) : count_digits (str n) = ndigits n.
Proof.
  unfold ndigits, str. destruct n as [|p|p];
    cbn [Z.abs Z.to_int NilZero.string_of_int].
  - reflexivity.
  - apply count_digits_all, string_of_uint_all_digits.
  - cbn [count_digits]. change (digit "-") with (@None Z). cbv iota.
    apply count_digits_all, string_of_uint_all_digits.
Qed.

(** An integer literal that starts with a digit has no sign. *)
Lemma int_unsigned (c : ascii) (s : string) :
  is_digit c = true -> nospace s = true ->
  (count_digits (String c s) <= max_str_digits)%nat ->
  int (String c s) = int_digits true 0 (String c s).
Proof.
  intros Hc Hs Hn. unfold int. cbv zeta.
  rewrite strip_int_nospace.
  - apply Nat.leb_le in Hn. rewrite Hn.
    rewrite <- int_digits_first by exact Hc.
    destruct c as [[] [] [] [] [] [] [] []]; try discriminate Hc;
      reflexivity.
  - unfold nospace in *. simpl. now rewrite is_digit_nospace, Hs.
Qed.

(** Printing an integer within the limit and reading it back. *)
Lemma int_str (n : Z) : printable n = true -> int (str n) = Some n.
Proof.
  unfold printable. intros P. apply Nat.leb_le in P.
  rewrite <- count_digits_str in P.
  destruct n as [|p|p].
  - reflexivity.
  - unfold str in *. cbn [Z.to_int NilZero.string_of_int] in *.
    pose proof (DecimalPos.Unsigned.to_uint_nonnil p) as Hnil.
    pose proof (DecimalZ.of_to (Z.pos p)) as Hval.
    cbn [Z.to_int Z.of_int] in Hval.
    pose proof (string_of_uint_digits (Pos.to_uint p)) as Hdig.
    pose proof (int_digits_zero (Pos.to_uint p)) as Hz.
    destruct (Pos.to_uint p) eqn:E; try contradiction;
      cbn [NilZero.string_of_uint NilEmpty.string_of_uint] in *;
      (rewrite int_unsigned;
       [ rewrite Hz, Hval; reflexivity
       | reflexivity
       | apply (string_forall_impl is_digit); [apply is_digit_nospace |];
         apply andb_prop in Hdig as [_ Hdig]; exact Hdig
       | exact P ]).
  - pose proof (str_nospace (Z.neg p)) as Hns.
    unfold str in *. cbn [Z.to_int NilZero.string_of_int] in *.
    pose proof (DecimalPos.Unsigned.to_uint_nonnil p) as Hnil.
    pose proof (DecimalZ.of_to (Z.neg p)) as Hval.
    cbn [Z.to_int Z.of_int] in Hval.
    pose proof (string_of_uint_digits (Pos.to_uint p)) as Hdig.
    pose proof (int_digits_zero (Pos.to_uint p)) as Hz.
    unfold int. cbv zeta. rewrite strip_int_nospace by exact Hns.
    apply Nat.leb_le in P. rewrite P.
    destruct (Pos.to_uint p) eqn:E; try contradiction;
      cbn [NilZero.string_of_uint NilEmpty.string_of_uint] in *;
      (rewrite int_digits_first by reflexivity;
       rewrite Hz; cbn [option_map]; rewrite Hval; reflexivity).
Qed.

(* ================================================================= *)
(** ** The header *)

Lemma string_forall_app (P : ascii -> bool) (a b : string) :
  string_forall P (a ++ b) = string_forall P a && string_forall P b.
Proof.
  induction a as [|c a IH]; simpl; [reflexivity |].
  now rewrite IH, andb_assoc.
Qed.

Lemma app_nonempty_l (a b : string) : a <> "" -> a ++ b <> "".
Proof.
  destruct a; [contradiction | discriminate].
Qed.

Lemma eqb_empty_false (s : string) : s <> "" -> (s =? "")%string = false.
Proof.
  destruct s; [contradiction | reflexivity].
Qed.

Lemma strip_token (a ws : string) :
  nospace a = true -> a <> "" -> string_forall isspace ws = true ->
  strip (a ++ ws) = a.
Proof.
  intros Ha Hae Hws. unfold strip.
  rewrite lstrip_nospace by assumption.
  rewrite rstrip_app_space by exact Hws.
  now apply rstrip_nospace.
Qed.

Lemma strip_two_tokens (a b ws : string) :
  nospace a = true -> a <> "" -> nospace b = true -> b <> "" ->
  string_forall isspace ws = true ->
  strip ((a ++ " " ++ b) ++ ws) = a ++ " " ++ b.
Proof.
  intros Ha Hae Hb Hbe Hws. unfold strip.
  rewrite append_assoc, lstrip_nospace by assumption.
  rewrite <- append_assoc, rstrip_app_space by exact Hws.
  change (a ++ " " ++ b) with (a ++ " " ++ b).
  rewrite <- append_assoc. now apply rstrip_app_nospace.
Qed.

(** What the three header lines must be for [_read_header] to return. *)
Lemma read_header_ok (infile : string) (h : Header) (rest : string) :
  _read_header infile = Ok (h, rest) ->
  let f1 := snd (readline infile) in
  let f2 := snd (readline f1) in
  strip (fst (readline infile)) = "P3"
  /\ (exists tw th,
        split (strip (fst (readline f1))) = [tw; th]
        /\ int tw = Some (width h) /\ int th = Some (height h))
  /\ int (strip (fst (readline f2))) = Some (max_color h)
  /\ rest = snd (readline f2).
Proof.
  unfold _read_header. cbv zeta.
  destruct (readline infile) as [first_ f1]. cbn [fst snd].
  destruct (readline f1) as [second_ f2]. cbn [fst snd].
  destruct (readline f2) as [third_ f3]. cbn [fst snd].
  destruct (String.eqb_spec (strip first_) P3_ID) as [E1 |];
    [| discriminate].
  cbn [negb orb].
  destruct ((strip second_ =? "")%string || (strip third_ =? "")%string);
    [discriminate |].
  unfold _convert_dimensions, _convert_color, _convert_int. cbv zeta.
  destruct (split (strip second_)) as [|tw [|th [|t3 l]]];
    try discriminate.
  cbn [List.length Nat.eqb nth].
  destruct (int tw) as [w|] eqn:Etw; [| discriminate].
  destruct (int th) as [hh|] eqn:Eth; [| discriminate].
  cbn [bind].
  destruct (int (strip third_)) as [m|] eqn:Em; [| discriminate].
  cbn [bind]. intros [= <- <-]. cbn [width height max_color].
  repeat split; try assumption.
  exists tw, th. auto.
Qed.

(** A printed header is read back, when its integers are within the
    limit on digits. *)
Lemma read_header_printed (w h m : Z) (rest : string) :
  printable w = true -> printable h = true -> printable m = true ->
  _read_header ("P3" ++ nl ++ (str w ++ " " ++ str h) ++ nl
                ++ str m ++ nl ++ rest)
  = Ok (mkHeader w h m, rest).
Proof.
  intros Pw Ph Pm.
  pose proof (str_nospace w) as Nw. pose proof (str_nonempty w) as Ew.
  pose proof (str_nospace h) as Nh. pose proof (str_nonempty h) as Eh.
  pose proof (str_nospace m) as Nm. pose proof (str_nonempty m) as Em.
  assert (NL : forall s, nospace s = true ->
                 string_forall (fun c => negb (Ascii.eqb c LF)) s = true).
  { intros s. apply string_forall_impl, nospace_no_LF. }
  unfold _read_header.
  change ("P3" ++ nl ++ (str w ++ " " ++ str h) ++ nl ++ str m ++ nl ++ rest)
    with ("P3" ++ String LF ((str w ++ " " ++ str h)
                             ++ String LF (str m ++ String LF rest))).
  rewrite readline_app by reflexivity.
  rewrite readline_app.
  2:{ rewrite string_forall_app, NL by exact Nw.
      cbn [string_forall append andb]. now rewrite NL. }
  rewrite readline_app by now apply NL.
  rewrite strip_two_tokens by (assumption || reflexivity).
  rewrite (strip_token (str m)) by (assumption || reflexivity).
  change (strip ("P3" ++ nl)) with "P3".
  change (negb ("P3" =? P3_ID)%string) with false. cbn [orb].
  rewrite (eqb_empty_false (str w ++ " " ++ str h))
    by now apply app_nonempty_l.
  rewrite (eqb_empty_false (str m)) by exact Em.
  unfold _convert_dimensions, _convert_color, _convert_int. cbv zeta.
  rewrite split_two_tokens by assumption.
  cbn [List.length Nat.eqb nth]. now rewrite !int_str by assumption.
Qed.

(* ================================================================= *)
(** ** The header of a decoded image *)

(** C4, as the specification states it, fails: a text whose header
    lines are "-2 -1" and "-5" is decoded, and none of its width, height
    and maximum colour is positive. *)
Lemma decoded_header_counterexample :
  exists img,
    get_image ("P3" ++ nl ++ "-2 -1" ++ nl ++ "-5" ++ nl ++ "1 2 3" ++ nl)
    = Ok img
    /\ ~ (width (header img) > 0 /\ height (header img) > 0
          /\ max_color (header img) >= 0).
Proof.
  eexists. split; [vm_compute; reflexivity |].
  simpl. lia.
Qed.

(** C4, amended.  The header of a successful decode has as width and
    height the integers that the two tokens of the second line denote,
    and as maximum colour the integer that the third line denotes; the
    decoder puts no condition on their signs. *)
Theorem decoded_header_fields (infile : string) (img : Image) :
  get_image infile = Ok img ->
  let f1 := snd (readline infile) in
  let f2 := snd (readline f1) in
  (exists tw th,
      split (strip (fst (readline f1))) = [tw; th]
      /\ int tw = Some (width (header img))
      /\ int th = Some (height (header img)))
  /\ int (strip (fst (readline f2))) = Some (max_color (header img)).
Proof.
  rewrite get_image_unfold.
  destruct (_read_header infile) as [[hd rest]|e] eqn:Hh; [| discriminate].
  cbn [bind].
  destruct (comprehension _ _) as [ps|e]; [| discriminate].
  cbn [bind]. intros [= <-]. cbn [header].
  destruct (read_header_ok infile hd rest Hh) as [_ [Hd [Hm _]]].
  split; assumption.
Qed.

(** A decoded header with a negative width, a zero height and a
    negative maximum colour. *)
Lemma decoded_header_fields_witness :
  (exists tw th,
      split "-2 0" = [tw; th] /\ int tw = Some (-2) /\ int th = Some 0)
  /\ int "-5" = Some (-5).
Proof.
  apply (decoded_header_fields
           ("P3" ++ nl ++ "-2 0" ++ nl ++ "-5" ++ nl ++ "0 0 0" ++ nl)
           (mkImage (mkHeader (-2) 0 (-5)) [mkPixel 0 0 0])).
  vm_compute. reflexivity.
Defined.

(* ================================================================= *)
(** * Further properties of the decoder *)

(** Induction on a list three elements at a time. *)
Lemma list_ind3 {A} (P : list A -> Prop) :
  P [] -> (forall a, P [a]) -> (forall a b, P [a; b]) ->
  (forall a b c l, P l -> P (a :: b :: c :: l)) ->
  forall l, P l.
Proof.
  intros H0 H1 H2 H3.
  assert (G : forall n l, (List.length l <= n)%nat -> P l).
  { induction n as [|n IH]; intros l Hl.
    - destruct l; [exact H0 | simpl in Hl; lia].
    - destruct l as [|a [|b [|c l]]]; auto.
      apply H3, IH. simpl in Hl. lia. }
  intros l. apply (G (List.length l)). lia.
Qed.

(** X1.  The groups of three are a partition of the tokens: put end to end
    they give the tokens back, there are [ceil(n / 3)] of them for [n]
    tokens, none is empty or longer than three, and all but the last
    have exactly three tokens. *)
Theorem groups_of_3_partition (values : list string) :
  List.concat (_groups_of_3 values) = values
  /\ List.length (_groups_of_3 values)
     = ((List.length values + 2) / 3)%nat
  /\ Forall (fun g => (1 <= List.length g <= 3)%nat) (_groups_of_3 values)
  /\ Forall (fun g => List.length g = 3%nat)
       (removelast (_groups_of_3 values)).
Proof.
  induction values as [| a | a b | a b c l [IH1 [IH2 [IH3 IH4]]]]
    using list_ind3.
  - repeat split; constructor.
  - repeat split; repeat constructor; simpl; lia.
  - repeat split; repeat constructor; simpl; lia.
  - rewrite groups_of_3_cons. repeat split.
    + simpl. now rewrite IH1.
    + cbn [List.length]. rewrite IH2.
      replace (S (S (S (List.length l))) + 2)%nat
        with (1 * 3 + (List.length l + 2))%nat by lia.
      now rewrite Nat.div_add_l by lia.
    + constructor; [simpl; lia | exact IH3].
    + cbn [removelast].
      destruct (_groups_of_3 l) eqn:E; constructor;
        [reflexivity | exact IH4].
Qed.

Lemma pixel_at_ok (h : Header) (n : nat) (g : list string) (p : Pixel) :
  pixel_at h (n, g) = Ok p ->
  width h <> 0 /\ (3 <= List.length g)%nat
  /\ int (nth 0 g "") = Some (red p) /\ int (nth 1 g "") = Some (green p)
  /\ int (nth 2 g "") = Some (blue p).
Proof.
  intros H. destruct (Z.eq_dec (width h) 0) as [W | W].
  - rewrite pixel_at_zero in H by exact W. discriminate.
  - rewrite pixel_at_nonzero in H by exact W. cbn [fst snd] in H.
    unfold _create_pixel, _convert_int in H.
    destruct (Nat.ltb_spec (List.length g) 3); [discriminate |].
    destruct (int (nth 0 g "")), (int (nth 1 g "")), (int (nth 2 g ""));
      try discriminate.
    injection H as <-. auto.
Qed.

(** X4.  A successful decode accounts for every token after the header: the
    tokens are, three by three and in order, the decimal numerals of the
    red, green and blue channels of the pixels.  Neither the declared
    height nor the declared maximum colour takes part. *)
Theorem decoded_pixels_are_the_tokens (infile : string) (img : Image) :
  get_image infile = Ok img ->
  exists rest,
    _read_header infile = Ok (header img, rest)
    /\ map int (split rest) = channel_values (pixels img)
    /\ List.length (split rest) = (3 * List.length (pixels img))%nat.
Proof.
  rewrite get_image_unfold.
  destruct (_read_header infile) as [[h rest]|e]; [| discriminate].
  cbn [bind].
  destruct (comprehension _ _) as [ps|e] eqn:C; [| discriminate].
  cbn [bind]. intros [= <-]. cbn [header pixels].
  exists rest. split; [reflexivity |].
  unfold enumerate in C. revert C. generalize (split rest) as l.
  assert (G : forall l ps' n,
             comprehension (pixel_at h) (enumerate_from n (_groups_of_3 l))
             = Ok ps' ->
             map int l = channel_values ps'
             /\ List.length l = (3 * List.length ps')%nat);
    [| intros l; apply G].
  clear ps.
  induction l as [| a | a b | a b c l IH] using list_ind3;
    intros ps n C.
  - injection C as <-. split; reflexivity.
  - exfalso. cbn in C.
    destruct (pixel_at h (n, [a])) as [p|e] eqn:E; [| discriminate].
    apply pixel_at_ok in E. simpl in E. lia.
  - exfalso. cbn in C.
    destruct (pixel_at h (n, [a; b])) as [p|e] eqn:E; [| discriminate].
    apply pixel_at_ok in E. simpl in E. lia.
  - rewrite groups_of_3_cons in C. cbn [enumerate_from comprehension] in C.
    destruct (pixel_at h (n, [a; b; c])) as [p|e] eqn:E; [| discriminate].
    cbn [bind] in C.
    destruct (comprehension _ _) as [ps'|e] eqn:C'; [| discriminate].
    cbn [bind] in C. injection C as <-.
    apply pixel_at_ok in E as [_ [_ [Hr [Hg Hb]]]]. cbn [nth] in *.
    destruct (IH ps' (S n) C') as [IHv IHl].
    split.
    + cbn [map]. rewrite Hr, Hg, Hb, IHv. reflexivity.
    + cbn [List.length]. rewrite IHl. lia.
Qed.

(** A text with two pixels: six tokens for two pixels. *)
Lemma decoded_pixels_are_the_tokens_witness :
  exists rest,
    _read_header ("P3" ++ nl ++ "2 1" ++ nl ++ "9" ++ nl ++ "1 2 3" ++ nl
                  ++ "4 5" ++ nl ++ "6" ++ nl)
    = Ok (mkHeader 2 1 9, rest)
    /\ map int (split rest) = [Some 1; Some 2; Some 3; Some 4; Some 5; Some 6]
    /\ List.length (split rest) = 6%nat.
Proof.
  apply (decoded_pixels_are_the_tokens
           ("P3" ++ nl ++ "2 1" ++ nl ++ "9" ++ nl ++ "1 2 3" ++ nl
            ++ "4 5" ++ nl ++ "6" ++ nl)
           (mkImage (mkHeader 2 1 9) [mkPixel 1 2 3; mkPixel 4 5 6])).
  vm_compute. reflexivity.
Defined.

(** An image decoded under the declared width 0 has no pixels: any
    token after such a header makes the decoder fail. *)
Lemma get_image_zero_width_pixels (infile : string) (img : Image) :
  get_image infile = Ok img ->
  width (header img) = 0 ->
  pixels img = [].
Proof.
  rewrite get_image_unfold.
  destruct (_read_header infile) as [[h rest]|e]; [| discriminate].
  cbn [bind].
  destruct (_groups_of_3 (split rest)) as [|g gs].
  - cbn. now intros [= <-].
  - cbn. destruct (pixel_at h (0%nat, g)) as [p|e] eqn:E.
    + cbn [bind]. destruct (comprehension _ _); [| discriminate].
      cbn [bind]. intros [= <-] W. cbn [header] in W.
      rewrite pixel_at_zero in E by exact W. discriminate.
    + discriminate.
Qed.

(** The failures of the decoder, at three texts: a header without its
    third line, a last group of two tokens, and the declared width 0
    with a pixel. *)
Lemma get_image_failures_witness :
  (P3InvalidHeaderError = P3InvalidHeaderError
   \/ (exists msg, P3InvalidHeaderError = PartialPixelError msg)
   \/ (exists msg, P3InvalidHeaderError = MalformedPixelError msg)
   \/ (P3InvalidHeaderError = ZeroDivisionError
       /\ exists h rest,
            _read_header ("P3" ++ nl ++ "2 1" ++ nl) = Ok (h, rest)
            /\ width h = 0 /\ split rest <> []))
  /\ (ZeroDivisionError = P3InvalidHeaderError
      \/ (exists msg, ZeroDivisionError = PartialPixelError msg)
      \/ (exists msg, ZeroDivisionError = MalformedPixelError msg)
      \/ (ZeroDivisionError = ZeroDivisionError
          /\ exists h rest,
               _read_header ("P3" ++ nl ++ "0 1" ++ nl ++ "255" ++ nl
                             ++ "1 2 3" ++ nl) = Ok (h, rest)
               /\ width h = 0 /\ split rest <> [])).
Proof.
  split.
  - apply (get_image_failures ("P3" ++ nl ++ "2 1" ++ nl)).
    vm_compute. reflexivity.
  - apply (get_image_failures
             ("P3" ++ nl ++ "0 1" ++ nl ++ "255" ++ nl ++ "1 2 3" ++ nl)).
    vm_compute. reflexivity.
Defined.

(** The errors of the groups, under the declared width 2: the fourth
    group (row 1, column 1) is the first that is not well formed, once
    for having two tokens, of which one is no integer, and once for
    having three tokens, of which one is no integer. *)
Lemma pixel_group_errors_witness :
  get_image ("P3" ++ nl ++ "2 2" ++ nl ++ "255" ++ nl
             ++ "1 2 3 4 5 6 7 8 9 1 xx" ++ nl)
  = Raise (PartialPixelError "partial pixel at <row=1, col=1>")
  /\ get_image ("P3" ++ nl ++ "2 2" ++ nl ++ "255" ++ nl
                ++ "1 2 3 4 5 6 7 8 9 1 xx 3 yy" ++ nl)
     = Raise (MalformedPixelError "invalid pixel at <row=1, col=1>").
Proof.
  split.
  - apply (pixel_group_errors
             ("P3" ++ nl ++ "2 2" ++ nl ++ "255" ++ nl
              ++ "1 2 3 4 5 6 7 8 9 1 xx" ++ nl)
             ("1 2 3 4 5 6 7 8 9 1 xx" ++ nl) (mkHeader 2 2 255)
             [["1"; "2"; "3"]; ["4"; "5"; "6"]; ["7"; "8"; "9"]]
             ["1"; "xx"] []);
      try (vm_compute; reflexivity); simpl; lia.
  - apply (pixel_group_errors
             ("P3" ++ nl ++ "2 2" ++ nl ++ "255" ++ nl
              ++ "1 2 3 4 5 6 7 8 9 1 xx 3 yy" ++ nl)
             ("1 2 3 4 5 6 7 8 9 1 xx 3 yy" ++ nl) (mkHeader 2 2 255)
             [["1"; "2"; "3"]; ["4"; "5"; "6"]; ["7"; "8"; "9"]]
             ["1"; "xx"; "3"] [["yy"]]);
      try (vm_compute; reflexivity); simpl; lia.
Defined.

(* ================================================================= *)
(** ** Decoding the text of an image *)

Lemma split_from_token_space (a : string) (c : ascii) (t : string) :
  nospace a = true -> a <> "" -> isspace c = true ->
  split_from "" (a ++ String c t) = a :: split_from "" t.
Proof.
  intros Ha Hae Hc. rewrite split_from_nospace by exact Ha.
  cbn [append split_from]. rewrite Hc.
  destruct a; [contradiction | reflexivity].
Qed.

Lemma split_pixel_lines (ps : list Pixel) :
  split (String.concat "" (map pixel_line ps)) = flat_map pixel_tokens ps.
Proof.
  unfold split. induction ps as [|p ps IH]; [reflexivity |].
  cbn [map flat_map]. rewrite concat_empty_cons. unfold pixel_line at 1.
  rewrite !append_assoc. unfold nl. cbn [append].
  rewrite !split_from_token_space
    by (apply str_nospace || apply str_nonempty || reflexivity).
  rewrite IH. reflexivity.
Qed.

Lemma groups_of_pixel_tokens (ps : list Pixel) :
  _groups_of_3 (flat_map pixel_tokens ps) = map pixel_tokens ps.
Proof.
  induction ps as [|p ps IH]; [reflexivity |].
  cbn [flat_map map].
  change (pixel_tokens p ++ flat_map pixel_tokens ps)%list
    with (str (red p) :: str (green p) :: str (blue p)
          :: flat_map pixel_tokens ps).
  now rewrite groups_of_3_cons, IH.
Qed.

Lemma create_pixel_tokens (p : Pixel) (row col : Z) :
  printable_pixel p = true ->
  _create_pixel (pixel_tokens p) row col = Ok p.
Proof.
  unfold printable_pixel. intros P.
  apply andb_prop in P as [P Pb]. apply andb_prop in P as [Pr Pg].
  unfold _create_pixel, _convert_int, pixel_tokens.
  cbn [List.length Nat.ltb Nat.leb nth]. rewrite !int_str by assumption.
  now destruct p.
Qed.

Lemma comprehension_pixel_tokens (h : Header) (n : nat) (ps : list Pixel) :
  width h <> 0 ->
  forallb printable_pixel ps = true ->
  comprehension (pixel_at h) (enumerate_from n (map pixel_tokens ps)) = Ok ps.
Proof.
  intros W. revert n. induction ps as [|p ps IH]; intros n P;
    [reflexivity |].
  cbn [forallb] in P. apply andb_prop in P as [Pp Pps].
  cbn [map enumerate_from comprehension].
  rewrite pixel_at_nonzero by exact W. cbn [fst snd].
  rewrite create_pixel_tokens by exact Pp. cbn [bind]. now rewrite IH.
Qed.

Lemma get_image_image_text (h : Header) (ps : list Pixel) :
  printable_header h = true ->
  get_image (image_text h ps)
  = (pixels <- comprehension (pixel_at h)
                 (enumerate (map pixel_tokens ps)) ;;
     Ok (mkImage h pixels)).
Proof.
  unfold printable_header. intros P.
  apply andb_prop in P as [P Pm]. apply andb_prop in P as [Pw Ph].
  unfold image_text.
  replace ("P3" ++ nl ++ str (width h) ++ " " ++ str (height h) ++ nl
           ++ str (max_color h) ++ nl ++ String.concat "" (map pixel_line ps))
    with ("P3" ++ nl ++ (str (width h) ++ " " ++ str (height h)) ++ nl
          ++ str (max_color h) ++ nl ++ String.concat "" (map pixel_line ps))
    by (now rewrite !append_assoc).
  rewrite get_image_unfold, read_header_printed by assumption. cbn [bind].
  rewrite split_pixel_lines, groups_of_pixel_tokens.
  now destruct h.
Qed.

(** X5.  The decoder reads back the text of any image whose integers are
    within the interpreter's limit of 4300 digits: whatever the header
    and the pixels are (no sign, no bound by the maximum colour, no
    number of pixels is asked for), the text of the header and of the
    pixels is decoded to that header and those pixels; only when the
    width is 0 and there is a pixel does the decoder fail, with
    [ZeroDivisionError]. *)
Theorem image_text_is_decoded (h : Header) (ps : list Pixel) :
  printable_header h = true ->
  forallb printable_pixel ps = true ->
  get_image (image_text h ps)
  = match ps with
    | [] => Ok (mkImage h [])
    | _ :: _ =>
        if width h =? 0 then Raise ZeroDivisionError
        else Ok (mkImage h ps)
    end.
Proof.
  intros Ph Pp. rewrite get_image_image_text by exact Ph. unfold enumerate.
  destruct ps as [|p ps]; [reflexivity |].
  destruct (Z.eqb_spec (width h) 0) as [W | W].
  - cbn [map enumerate_from comprehension].
    rewrite pixel_at_zero by exact W. reflexivity.
  - rewrite comprehension_pixel_tokens by assumption. reflexivity.
Qed.

(** An image with a negative width, a channel above the maximum colour
    and more pixels than its header declares, and an image of width 0. *)
Lemma image_text_is_decoded_witness :
  get_image (image_text (mkHeader (-2) 1 255)
               [mkPixel 999 0 (-1); mkPixel 1 2 3; mkPixel 4 5 6])
  = Ok (mkImage (mkHeader (-2) 1 255)
          [mkPixel 999 0 (-1); mkPixel 1 2 3; mkPixel 4 5 6])
  /\ get_image (image_text (mkHeader 0 1 255) [mkPixel 1 2 3])
     = Raise ZeroDivisionError.
Proof.
  split.
  - apply (image_text_is_decoded (mkHeader (-2) 1 255)
             [mkPixel 999 0 (-1); mkPixel 1 2 3; mkPixel 4 5 6]);
      reflexivity.
  - apply (image_text_is_decoded (mkHeader 0 1 255) [mkPixel 1 2 3]);
      reflexivity.
Defined.

(* ================================================================= *)
(** ** Decoding what the program writes *)

Lemma read_header_blank_second_line (rest : string) :
  _read_header ("P3" ++ nl ++ nl ++ rest) = Raise P3InvalidHeaderError.
Proof.
  unfold _read_header.
  change ("P3" ++ nl ++ nl ++ rest) with ("P3" ++ String LF ("" ++ String LF rest)).
  rewrite !readline_app by reflexivity.
  destruct (readline rest) as [third_ f3].
  reflexivity.
Qed.

(** The decoder does not read what [write_header] writes: the empty
    line after "P3" is taken for the line of the dimensions.  So
    neither of the two images that the program writes is a text the
    program can read. *)
Theorem written_header_is_not_decoded (h : Header) (rest : string) :
  get_image (write_header "" h ++ rest) = Raise P3InvalidHeaderError.
Proof.
  rewrite write_header_text. rewrite !append_assoc.
  rewrite get_image_unfold.
  change ("" ++ "P3" ++ nl ++ nl
          ++ str (width h) ++ " " ++ str (height h) ++ nl ++ nl
          ++ str (max_color h) ++ nl ++ nl ++ rest)
    with ("P3" ++ nl ++ nl
          ++ (str (width h) ++ " " ++ str (height h) ++ nl ++ nl
              ++ str (max_color h) ++ nl ++ nl ++ rest)).
  now rewrite read_header_blank_second_line.
Qed.

(* ================================================================= *)
(** * Further properties of the difference engine *)

(** The loop only adds text to the three streams. *)
Lemma process_loop_appends Pixel_str h items differ s :
  exists td ta te,
    fst (process_loop Pixel_str h items differ s)
    = mkStreams (out_digital s ++ td) (out_analog s ++ ta) (stderr s ++ te).
Proof.
  revert differ s.
  induction items as [|[idx [p1 p2]] items IH]; intros differ s.
  - exists "", "", "". cbn. rewrite !append_empty_r. now destruct s.
  - cbn [process_loop].
    destruct (Pixel_eq p1 p2) eqn:E.
    + rewrite process_pair_equal by exact E.
      destruct (IH differ
                  (mkStreams (out_digital s ++ white_row h)
                     (out_analog s ++ white_row h) (stderr s)))
        as [td [ta [te H]]].
      rewrite H. cbn [out_digital out_analog stderr].
      exists (white_row h ++ td), (white_row h ++ ta), te.
      now rewrite !append_assoc.
    + destruct (Z.eq_dec (width h) 0) as [W | W].
      * rewrite process_pair_raise by assumption.
        exists "", "", "". cbn. rewrite !append_empty_r. now destruct s.
      * rewrite process_pair_differ by assumption.
        destruct (IH true
                    (mkStreams (out_digital s ++ "0 0 0 " ++ nl)
                       (out_analog s ++ analog_row h p1 p2)
                       (stderr s ++ diagnostic_line Pixel_str h idx p1 p2)))
          as [td [ta [te H]]].
        rewrite H. cbn [out_digital out_analog stderr].
        exists (("0 0 0 " ++ nl) ++ td), (analog_row h p1 p2 ++ ta),
          (diagnostic_line Pixel_str h idx p1 p2 ++ te).
        now rewrite !append_assoc.
Qed.

(** X6.  Neither of the two images that [generate_diffs] writes to empty
    files is a text that the decoder of the program accepts: both are
    refused as having an invalid header. *)
Theorem diff_images_are_not_decoded (Pixel_str : Pixel -> string)
    (ps1 ps2 : list Pixel) (err : string) (h : Header) :
  get_image (out_digital (fst (generate_diffs Pixel_str ps1 ps2
                                 (mkStreams "" "" err) h)))
  = Raise P3InvalidHeaderError
  /\ get_image (out_analog (fst (generate_diffs Pixel_str ps1 ps2
                                   (mkStreams "" "" err) h)))
     = Raise P3InvalidHeaderError.
Proof.
  unfold generate_diffs, process_pixels. cbv zeta.
  cbn [out_digital out_analog stderr].
  destruct (process_loop_appends Pixel_str h (enumerate (zip ps1 ps2)) false
              (mkStreams (write_header "" h) (write_header "" h) err))
    as [td [ta [te H]]].
  rewrite H. cbn [out_digital out_analog].
  split; apply written_header_is_not_decoded.
Qed.

(** How the loop ends. *)
Lemma process_loop_result Pixel_str h items differ s :
  snd (process_loop Pixel_str h items differ s)
  = if (width h =? 0) && existsb differs items
    then Raise ZeroDivisionError
    else Ok (differ || existsb differs items).
Proof.
  revert differ s.
  induction items as [|[idx [p1 p2]] items IH]; intros differ s.
  - cbn. now rewrite andb_false_r, orb_false_r.
  - cbn [process_loop existsb]. unfold differs at 1 3. cbn [fst snd].
    destruct (Pixel_eq p1 p2) eqn:E; cbn [negb orb].
    + rewrite process_pair_equal by exact E. apply IH.
    + destruct (Z.eqb_spec (width h) 0) as [W | W].
      * rewrite process_pair_raise by assumption. reflexivity.
      * rewrite process_pair_differ by assumption. rewrite IH.
        apply Z.eqb_neq in W. rewrite ?W. cbn [andb].
        now rewrite orb_true_r.
Qed.

(** X7.  The result of [process_pixels]: when it returns, the flag tells
    whether some compared pair of pixels differs, and it returns [True]
    only under a width that is not zero; when it raises
    [ZeroDivisionError], the width is 0 and some compared pair differs. *)
Theorem process_pixels_result (Pixel_str : Pixel -> string)
    (ps1 ps2 : list Pixel) (s : Streams) (h : Header) :
  (forall differ,
      snd (process_pixels Pixel_str ps1 ps2 s h) = Ok differ ->
      differ = existsb (fun '(pixel1, pixel2) =>
                          negb (Pixel_eq pixel1 pixel2)) (zip ps1 ps2)
      /\ (differ = true -> width h <> 0))
  /\ (snd (process_pixels Pixel_str ps1 ps2 s h) = Raise ZeroDivisionError ->
      width h = 0
      /\ existsb (fun '(pixel1, pixel2) => negb (Pixel_eq pixel1 pixel2))
           (zip ps1 ps2) = true).
Proof.
  unfold process_pixels, enumerate.
  rewrite process_loop_result, existsb_differs_enumerate_from.
  cbn [orb].
  destruct (Z.eqb_spec (width h) 0) as [W | W];
    destruct (existsb _ (zip ps1 ps2)); cbn [andb]; split;
    try discriminate; try (intros d [= <-]; split; congruence);
    auto.
Qed.

(** Two lists of which the second pixels differ, under the width 2 and
    under the width 0. *)
Lemma process_pixels_result_witness :
  (true = existsb (fun '(pixel1, pixel2) => negb (Pixel_eq pixel1 pixel2))
            (zip [mkPixel 1 1 1; mkPixel 1 2 3] [mkPixel 1 1 1; mkPixel 1 2 4])
   /\ (true = true -> width (mkHeader 2 1 9) <> 0))
  /\ (width (mkHeader 0 1 9) = 0
      /\ existsb (fun '(pixel1, pixel2) => negb (Pixel_eq pixel1 pixel2))
           (zip [mkPixel 1 1 1; mkPixel 1 2 3] [mkPixel 1 1 1; mkPixel 1 2 4])
         = true).
Proof.
  split.
  - apply (process_pixels_result example_Pixel_str
             [mkPixel 1 1 1; mkPixel 1 2 3] [mkPixel 1 1 1; mkPixel 1 2 4]
             (mkStreams "" "" "") (mkHeader 2 1 9)).
    reflexivity.
  - apply (process_pixels_result example_Pixel_str
             [mkPixel 1 1 1; mkPixel 1 2 3] [mkPixel 1 1 1; mkPixel 1 2 4]
             (mkStreams "" "" "") (mkHeader 0 1 9)).
    reflexivity.
Defined.

(** The analog row of a pair of equal pixels is the white row: the
    formula of the differing pairs gives it too. *)
Lemma analog_text_formula (h : Header) (pp : Pixel * Pixel) :
  analog_text h pp = analog_row h (fst pp) (snd pp).
Proof.
  unfold analog_text. destruct (Pixel_eq (fst pp) (snd pp)) eqn:E;
    [| reflexivity].
  apply Pixel_eq_true in E. rewrite E. unfold analog_row, white_row.
  now rewrite !Z.sub_diag, !Z.sub_0_r.
Qed.

Lemma map_snd_enumerate_from {A B} (g : A -> B) n (l : list A) :
  map (fun it => g (snd it)) (enumerate_from n l) = map g l.
Proof.
  revert n; induction l as [|x l IH]; intros n; simpl;
    [reflexivity | now rewrite IH].
Qed.

(** What the loop has written when it returns. *)
Lemma process_loop_returns Pixel_str h items differ s d :
  snd (process_loop Pixel_str h items differ s) = Ok d ->
  fst (process_loop Pixel_str h items differ s)
  = mkStreams
      (out_digital s
       ++ String.concat "" (map (fun it => digital_text h (snd it)) items))
      (out_analog s
       ++ String.concat "" (map (fun it => analog_text h (snd it)) items))
      (stderr s ++ String.concat "" (map (stderr_text Pixel_str h) items)).
Proof.
  revert differ s.
  induction items as [|[idx [p1 p2]] items IH]; intros differ s.
  - intros _. cbn. rewrite !append_empty_r. now destruct s.
  - cbn [process_loop map]. rewrite !concat_empty_cons.
    unfold digital_text at 1, analog_text at 1, stderr_text at 1.
    cbn [fst snd].
    destruct (Pixel_eq p1 p2) eqn:E.
    + rewrite process_pair_equal by exact E. intros R.
      rewrite (IH _ _ R). cbn [out_digital out_analog stderr].
      now rewrite !append_assoc.
    + destruct (Z.eq_dec (width h) 0) as [W | W].
      * rewrite process_pair_raise by assumption. discriminate.
      * rewrite process_pair_differ by assumption. intros R.
        rewrite (IH _ _ R). cbn [out_digital out_analog stderr].
        now rewrite !append_assoc.
Qed.

(** X8.  The two images that [generate_diffs] has written when it
    returns: each output has received the header once ("P3", the width
    and the height, the maximum colour, each followed by an empty line)
    and then one row per compared pair.  The digital row is white or
    "0 0 0 "; the analog row is, for every pair, equal or not, the
    maximum colour minus the absolute difference, channel by channel. *)
Theorem generate_diffs_outputs (Pixel_str : Pixel -> string)
    (ps1 ps2 : list Pixel) (s : Streams) (h : Header) (differ : bool) :
  snd (generate_diffs Pixel_str ps1 ps2 s h) = Ok differ ->
  out_digital (fst (generate_diffs Pixel_str ps1 ps2 s h))
  = out_digital s
    ++ ("P3" ++ nl ++ nl ++ str (width h) ++ " " ++ str (height h) ++ nl ++ nl
        ++ str (max_color h) ++ nl ++ nl)
    ++ String.concat ""
         (map (fun '(pixel1, pixel2) =>
                 if Pixel_eq pixel1 pixel2
                 then str (max_color h) ++ " " ++ str (max_color h) ++ " "
                      ++ str (max_color h) ++ " " ++ nl
                 else "0 0 0 " ++ nl)
              (zip ps1 ps2))
  /\ out_analog (fst (generate_diffs Pixel_str ps1 ps2 s h))
     = out_analog s
       ++ ("P3" ++ nl ++ nl ++ str (width h) ++ " " ++ str (height h)
           ++ nl ++ nl ++ str (max_color h) ++ nl ++ nl)
       ++ String.concat ""
            (map (fun '(pixel1, pixel2) =>
                    str (max_color h - Z.abs (red pixel1 - red pixel2)) ++ " "
                    ++ str (max_color h - Z.abs (green pixel1 - green pixel2))
                    ++ " "
                    ++ str (max_color h - Z.abs (blue pixel1 - blue pixel2))
                    ++ " " ++ nl)
                 (zip ps1 ps2)).
Proof.
  unfold generate_diffs, process_pixels, enumerate. cbv zeta. intros R.
  rewrite (process_loop_returns _ _ _ _ _ _ R).
  cbn [fst out_digital out_analog stderr].
  rewrite !write_header_text, !map_snd_enumerate_from.
  rewrite (map_ext (digital_text h)
             (fun '(pixel1, pixel2) =>
                if Pixel_eq pixel1 pixel2
                then str (max_color h) ++ " " ++ str (max_color h) ++ " "
                     ++ str (max_color h) ++ " " ++ nl
                else "0 0 0 " ++ nl))
    by now intros [p1 p2].
  rewrite (map_ext (analog_text h)
             (fun '(pixel1, pixel2) =>
                str (max_color h - Z.abs (red pixel1 - red pixel2)) ++ " "
                ++ str (max_color h - Z.abs (green pixel1 - green pixel2))
                ++ " "
                ++ str (max_color h - Z.abs (blue pixel1 - blue pixel2))
                ++ " " ++ nl))
    by (intros [p1 p2]; now rewrite analog_text_formula).
  split; rewrite !append_assoc; reflexivity.
Qed.

(** [generate_diffs] with the example rendering of pixels, under the
    width 2: a white row and a differing row. *)
Lemma generate_diffs_outputs_witness :
  out_digital (fst (generate_diffs example_Pixel_str
                      [mkPixel 9 9 9; mkPixel 10 20 30]
                      [mkPixel 9 9 9; mkPixel 40 20 10]
                      (mkStreams "" "" "") (mkHeader 2 1 50)))
  = "P3" ++ nl ++ nl ++ "2 1" ++ nl ++ nl ++ "50" ++ nl ++ nl
    ++ "50 50 50 " ++ nl ++ "0 0 0 " ++ nl
  /\ out_analog (fst (generate_diffs example_Pixel_str
                        [mkPixel 9 9 9; mkPixel 10 20 30]
                        [mkPixel 9 9 9; mkPixel 40 20 10]
                        (mkStreams "" "" "") (mkHeader 2 1 50)))
     = "P3" ++ nl ++ nl ++ "2 1" ++ nl ++ nl ++ "50" ++ nl ++ nl
       ++ "50 50 50 " ++ nl ++ "20 50 30 " ++ nl.
Proof.
  assert (R : snd (generate_diffs example_Pixel_str
                     [mkPixel 9 9 9; mkPixel 10 20 30]
                     [mkPixel 9 9 9; mkPixel 40 20 10]
                     (mkStreams "" "" "") (mkHeader 2 1 50)) = Ok true)
    by reflexivity.
  destruct (generate_diffs_outputs example_Pixel_str
              [mkPixel 9 9 9; mkPixel 10 20 30]
              [mkPixel 9 9 9; mkPixel 40 20 10]
              (mkStreams "" "" "") (mkHeader 2 1 50) true R) as [D A].
  rewrite D, A. split; reflexivity.
Defined.

(* ================================================================= *)
(** ** The two images the other way round *)

Lemma Pixel_eq_sym (p1 p2 : Pixel) : Pixel_eq p1 p2 = Pixel_eq p2 p1.
Proof.
  unfold Pixel_eq.
  now rewrite (Z.eqb_sym (red p1)), (Z.eqb_sym (green p1)),
    (Z.eqb_sym (blue p1)).
Qed.

Lemma analog_row_sym (h : Header) (p1 p2 : Pixel) :
  analog_row h p1 p2 = analog_row h p2 p1.
Proof.
  unfold analog_row.
  replace (Z.abs (red p2 - red p1)) with (Z.abs (red p1 - red p2)) by lia.
  replace (Z.abs (green p2 - green p1)) with (Z.abs (green p1 - green p2))
    by lia.
  replace (Z.abs (blue p2 - blue p1)) with (Z.abs (blue p1 - blue p2))
    by lia.
  reflexivity.
Qed.

Lemma enumerate_from_zip_swap (n : nat) (ps1 ps2 : list Pixel) :
  enumerate_from n (zip ps2 ps1)
  = map swap_item (enumerate_from n (zip ps1 ps2)).
Proof.
  revert n ps2; induction ps1 as [|p1 ps1 IH]; intros n [|p2 ps2];
    try reflexivity.
  cbn [zip enumerate_from map]. now rewrite IH.
Qed.

Lemma process_loop_swap P P' h items differ s s' :
  out_digital s = out_digital s' -> out_analog s = out_analog s' ->
  out_digital (fst (process_loop P h items differ s))
  = out_digital (fst (process_loop P' h (map swap_item items) differ s'))
  /\ out_analog (fst (process_loop P h items differ s))
     = out_analog (fst (process_loop P' h (map swap_item items) differ s'))
  /\ snd (process_loop P h items differ s)
     = snd (process_loop P' h (map swap_item items) differ s').
Proof.
  revert differ s s'.
  induction items as [|[idx [p1 p2]] items IH]; intros differ s s' Hd Ha.
  - cbn. auto.
  - cbn [map process_loop].
    change (swap_item (idx, (p1, p2))) with (idx, (p2, p1)).
    cbv beta iota.
    destruct (Pixel_eq p1 p2) eqn:E.
    + rewrite !(process_pair_equal P) by exact E.
      rewrite !(process_pair_equal P') by (rewrite Pixel_eq_sym; assumption).
      cbv beta iota. apply IH; cbn [out_digital out_analog]; congruence.
    + destruct (Z.eq_dec (width h) 0) as [W | W].
      * rewrite !(process_pair_raise P) by assumption.
        rewrite !(process_pair_raise P') by (assumption || (rewrite Pixel_eq_sym; assumption)).
        cbn. auto.
      * rewrite !(process_pair_differ P) by assumption.
        rewrite !(process_pair_differ P') by (assumption || (rewrite Pixel_eq_sym; assumption)).
        cbv beta iota. apply IH; cbn [out_digital out_analog];
          [congruence | rewrite (analog_row_sym h p2 p1); congruence].
Qed.

(** X9.  Which image comes first matters to the diagnostic lines only: the
    digital image, the analog image and the result (the flag, or the
    exception) are the same when the two lists of pixels are exchanged.
    Nor do they depend on how a pixel is rendered as text. *)
Theorem process_pixels_exchange (Pixel_str Pixel_str' : Pixel -> string)
    (ps1 ps2 : list Pixel) (s : Streams) (h : Header) :
  out_digital (fst (process_pixels Pixel_str ps1 ps2 s h))
  = out_digital (fst (process_pixels Pixel_str' ps2 ps1 s h))
  /\ out_analog (fst (process_pixels Pixel_str ps1 ps2 s h))
     = out_analog (fst (process_pixels Pixel_str' ps2 ps1 s h))
  /\ snd (process_pixels Pixel_str ps1 ps2 s h)
     = snd (process_pixels Pixel_str' ps2 ps1 s h).
Proof.
  unfold process_pixels, enumerate.
  rewrite (enumerate_from_zip_swap 0 ps1 ps2).
  now apply process_loop_swap.
Qed.

(* ================================================================= *)
(** ** Headers and pixels *)

(** X10.  [header_match_error] answers "nothing differs" exactly for equal
    headers, and does not depend on the order of the two headers.  So
    [main], which asks for the reason only when the headers are not
    equal, never reports "nothing differs". *)
Theorem header_match_error_equal_headers (h1 h2 : Header) :
  (header_match_error h1 h2 =? NO_MISMATCH)%string = Header_eq h1 h2
  /\ header_match_error h1 h2 = header_match_error h2 h1.
Proof.
  unfold header_match_error, Header_eq.
  rewrite (Z.eqb_sym (width h2)), (Z.eqb_sym (height h2)),
    (Z.eqb_sym (max_color h2)).
  destruct (width h1 =? width h2), (height h1 =? height h2),
    (max_color h1 =? max_color h2); split; reflexivity.
Qed.

Lemma Header_eq_true (h1 h2 : Header) : Header_eq h1 h2 = true <-> h1 = h2.
Proof.
  unfold Header_eq. split.
  - intros H. apply andb_prop in H as [H Hm].
    apply andb_prop in H as [Hw Hh].
    apply Z.eqb_eq in Hw, Hh, Hm.
    destruct h1, h2; simpl in *; congruence.
  - intros ->. now rewrite !Z.eqb_refl.
Qed.

(** X11.  The difference of two pixels has no negative channel, and it is the
    black pixel (0, 0, 0) exactly when the two pixels are equal: the
    test [pixel1 == pixel2] of the engine and a zero difference agree. *)
Theorem pixel_diff_zero_iff_equal (p1 p2 : Pixel) :
  Pixel_eq (pixel_diff p1 p2) (mkPixel 0 0 0) = Pixel_eq p1 p2
  /\ 0 <= red (pixel_diff p1 p2) /\ 0 <= green (pixel_diff p1 p2)
  /\ 0 <= blue (pixel_diff p1 p2).
Proof.
  assert (A : forall a b, (Z.abs (a - b) =? 0) = (a =? b)).
  { intros a b. destruct (Z.eqb_spec a b), (Z.eqb_spec (Z.abs (a - b)) 0);
      try reflexivity; lia. }
  unfold Pixel_eq, pixel_diff. cbn [red green blue].
  rewrite !A. repeat split; apply Z.abs_nonneg.
Qed.

(** X12.  When the channels of the two pixels lie between 0 and the maximum
    colour, so do the three values of the analog row, the maximum colour
    minus the difference: the analog image is then a valid image. *)
Theorem analog_values_in_range (m : Z) (p1 p2 : Pixel) :
  0 <= red p1 <= m -> 0 <= green p1 <= m -> 0 <= blue p1 <= m ->
  0 <= red p2 <= m -> 0 <= green p2 <= m -> 0 <= blue p2 <= m ->
  0 <= m - red (pixel_diff p1 p2) <= m
  /\ 0 <= m - green (pixel_diff p1 p2) <= m
  /\ 0 <= m - blue (pixel_diff p1 p2) <= m.
Proof.
  unfold pixel_diff. cbn [red green blue]. lia.
Qed.

Lemma analog_values_in_range_witness :
  0 <= 255 - red (pixel_diff (mkPixel 0 255 7) (mkPixel 255 0 7)) <= 255
  /\ 0 <= 255 - green (pixel_diff (mkPixel 0 255 7) (mkPixel 255 0 7)) <= 255
  /\ 0 <= 255 - blue (pixel_diff (mkPixel 0 255 7) (mkPixel 255 0 7)) <= 255.
Proof.
  apply (analog_values_in_range 255 (mkPixel 0 255 7) (mkPixel 255 0 7));
    simpl; lia.
Defined.

(* ================================================================= *)
(** * The decoder and the engine together *)

Lemma generate_diffs_of_decoded (Pixel_str : Pixel -> string)
    (infile : string) (img : Image) (ps2 : list Pixel) (s : Streams) :
  get_image infile = Ok img ->
  snd (generate_diffs Pixel_str (pixels img) ps2 s (header img))
  = Ok (existsb (fun '(pixel1, pixel2) => negb (Pixel_eq pixel1 pixel2))
          (zip (pixels img) ps2)).
Proof.
  intros H. unfold generate_diffs, process_pixels, enumerate. cbv zeta.
  rewrite process_loop_result, existsb_differs_enumerate_from.
  destruct (Z.eqb_spec (width (header img)) 0) as [W | W]; [| reflexivity].
  now rewrite (get_image_zero_width_pixels infile img H W).
Qed.

(** X13.  The division by the width cannot fail in the engine when the
    header and the first list of pixels come from one decoded image: an
    image decoded under the width 0 has no pixels, so that
    [generate_diffs] does not raise [ZeroDivisionError], whatever the
    second list of pixels is. *)
Theorem decoded_image_diff_no_zero_division (Pixel_str : Pixel -> string)
    (infile : string) (img : Image) (ps2 : list Pixel) (s : Streams) :
  get_image infile = Ok img ->
  (width (header img) = 0 -> pixels img = [])
  /\ snd (generate_diffs Pixel_str (pixels img) ps2 s (header img))
     <> Raise ZeroDivisionError.
Proof.
  intros H. split.
  - now apply (get_image_zero_width_pixels infile).
  - rewrite (generate_diffs_of_decoded Pixel_str infile img ps2 s H).
    discriminate.
Qed.

(** An image of width 0, which has no pixels, and an image of two
    pixels, diffed against a list of which the second pixel differs. *)
Lemma decoded_image_diff_no_zero_division_witness :
  ((width (mkHeader 0 7 255) = 0 -> @nil Pixel = [])
   /\ snd (generate_diffs example_Pixel_str [] [mkPixel 1 2 3]
             (mkStreams "" "" "") (mkHeader 0 7 255))
      <> Raise ZeroDivisionError)
  /\ ((width (mkHeader 2 1 255) = 0 -> [mkPixel 1 2 3; mkPixel 4 5 6] = [])
      /\ snd (generate_diffs example_Pixel_str
                [mkPixel 1 2 3; mkPixel 4 5 6] [mkPixel 1 2 3; mkPixel 4 5 7]
                (mkStreams "" "" "") (mkHeader 2 1 255))
         <> Raise ZeroDivisionError).
Proof.
  split.
  - apply (decoded_image_diff_no_zero_division example_Pixel_str
             ("P3" ++ nl ++ "0 7" ++ nl ++ "255" ++ nl)
             (mkImage (mkHeader 0 7 255) []) [mkPixel 1 2 3]
             (mkStreams "" "" "")).
    vm_compute. reflexivity.
  - apply (decoded_image_diff_no_zero_division example_Pixel_str
             ("P3" ++ nl ++ "2 1" ++ nl ++ "255" ++ nl ++ "1 2 3 4 5 6" ++ nl)
             (mkImage (mkHeader 2 1 255) [mkPixel 1 2 3; mkPixel 4 5 6])
             [mkPixel 1 2 3; mkPixel 4 5 7] (mkStreams "" "" "")).
    vm_compute. reflexivity.
Defined.

(* ================================================================= *)
(** * The program *)

Lemma error_text (msg err : string) :
  error msg err = (err ++ msg ++ nl, Exit 1).
Proof.
  unfold error, print. cbn [format]. now rewrite append_empty_r.
Qed.

Lemma open_file_read (name : string) (env : Env) (err : string) :
  open_file name "r" env err
  = match open_read env name with
    | inl text => Go text err
    | inr strerror => Halt (err ++ (name ++ ": " ++ strerror) ++ nl) (Exit 1)
    end.
Proof.
  unfold open_file. change ("r" =? "w")%string with false. cbv iota.
  destruct (open_read env name); [reflexivity |].
  now rewrite error_text.
Qed.

Lemma open_file_write (name : string) (env : Env) (err : string) :
  open_file name "w" env err
  = match open_write env name with
    | None => Go "" err
    | Some strerror => Halt (err ++ (name ++ ": " ++ strerror) ++ nl) (Exit 1)
    end.
Proof.
  unfold open_file. change ("w" =? "w")%string with true. cbv iota.
  destruct (open_write env name); [| reflexivity].
  now rewrite error_text.
Qed.

Lemma prog_name_nonempty (argv : list string) : prog_name argv <> "".
Proof.
  unfold prog_name. destruct argv as [|name argv]; [discriminate |].
  destruct (String.eqb_spec name ""); [discriminate | assumption].
Qed.

Lemma handle_ending (e : exn) (err : string) (d a : option string) :
  run_end (handle e err d a) = Exit 1
  \/ (e = ZeroDivisionError
      /\ handle e err d a = mkRun err d a (Uncaught ZeroDivisionError)).
Proof.
  destruct e; cbn; auto.
Qed.

(** X14.  With a number of arguments other than three nothing is opened: the
    program prints the usage line, which names the program by its first
    argument or, when there is none or it is empty, by "ppmdiff.py" (so
    the name is never empty), and exits with the status 1. *)
Theorem main_usage (Pixel_str : Pixel -> string) (argv : list string)
    (env : Env) :
  List.length argv <> 3%nat ->
  main Pixel_str argv env
  = mkRun ("usage: " ++ prog_name argv ++ " image1.ppm image2.ppm" ++ nl)
      None None (Exit 1)
  /\ prog_name argv <> "".
Proof.
  intros H. split; [| apply prog_name_nonempty].
  unfold main, check_args, NUM_ARGS.
  apply Nat.eqb_neq in H. rewrite H.
  unfold usage. rewrite error_text. cbn [format append].
  now rewrite !append_assoc.
Qed.

Lemma main_usage_witness :
  main example_Pixel_str [""; "a.ppm"] (mkEnv (fun _ => inl "") (fun _ => None))
  = mkRun ("usage: ppmdiff.py image1.ppm image2.ppm" ++ nl) None None (Exit 1)
  /\ prog_name [""; "a.ppm"] <> "".
Proof.
  apply (main_usage example_Pixel_str [""; "a.ppm"]
           (mkEnv (fun _ => inl "") (fun _ => None))).
  simpl. lia.
Defined.

(** X15.  A [ZeroDivisionError] that nothing catches can only come from
    the decoding of one of the two inputs: when a run ends with it, one
    of the input files is a text on which [get_image] raises it (a
    header of width 0 followed by a token), and no output file has been
    opened.  Once the outputs are open the run cannot end with it. *)
Theorem main_zero_division (Pixel_str : Pixel -> string) (argv : list string)
    (env : Env) :
  run_end (main Pixel_str argv env) = Uncaught ZeroDivisionError ->
  run_digital (main Pixel_str argv env) = None
  /\ run_analog (main Pixel_str argv env) = None
  /\ exists name text,
       In name argv /\ open_read env name = inl text
       /\ get_image text = Raise ZeroDivisionError.
Proof.
  unfold main, check_args, NUM_ARGS.
  destruct argv as [|prog [|file1 [|file2 [|x argv]]]];
    cbn [List.length Nat.eqb];
    try (unfold usage; rewrite error_text; cbn; discriminate).
  change (nth FILE_ARG1 [prog; file1; file2] "") with file1.
  change (nth FILE_ARG2 [prog; file1; file2] "") with file2.
  rewrite open_file_read.
  destruct (open_read env file1) as [t1|se] eqn:O1; [| cbn; discriminate].
  rewrite open_file_read.
  destruct (open_read env file2) as [t2|se] eqn:O2; [| cbn; discriminate].
  change Utility.get_image with get_image.
  destruct (get_image t1) as [img1|e1] eqn:G1; cbn [bind].
  2:{ destruct e1; cbn; rewrite ?error_text; cbn; try discriminate.
      intros _. repeat split. exists file1, t1. cbn. auto. }
  destruct (get_image t2) as [img2|e2] eqn:G2; cbn [bind].
  2:{ destruct e2; cbn; rewrite ?error_text; cbn; try discriminate.
      intros _. repeat split. exists file2, t2. cbn. auto. }
  destruct (Header_eq (header img1) (header img2)); cbn [negb].
  2:{ rewrite error_text. cbn. discriminate. }
  rewrite open_file_write.
  destruct (open_write env OUT_FILE_DIGITAL); [cbn; discriminate |].
  rewrite open_file_write.
  destruct (open_write env OUT_FILE_ANALOG); [cbn; discriminate |].
  pose proof (generate_diffs_of_decoded Pixel_str t1 img1 (pixels img2)
                (mkStreams "" "" "") G1) as R.
  destruct (generate_diffs Pixel_str (pixels img1) (pixels img2)
              (mkStreams "" "" "") (header img1)) as [s r].
  cbn [snd] in R. rewrite R. cbn [run_end]. discriminate.
Qed.

(** A second input with a header of width 0 and a pixel. *)
Lemma main_zero_division_witness :
  run_digital (main example_Pixel_str ["ppmdiff.py"; "a.ppm"; "zero.ppm"]
                 example_env) = None
  /\ run_analog (main example_Pixel_str ["ppmdiff.py"; "a.ppm"; "zero.ppm"]
                   example_env) = None
  /\ exists name text,
       In name ["ppmdiff.py"; "a.ppm"; "zero.ppm"]
       /\ open_read example_env name = inl text
       /\ get_image text = Raise ZeroDivisionError.
Proof.
  apply (main_zero_division example_Pixel_str
           ["ppmdiff.py"; "a.ppm"; "zero.ppm"] example_env).
  vm_compute. reflexivity.
Defined.

(** The run of the program once its two inputs are decoded. *)
Lemma main_decoded (Pixel_str : Pixel -> string) (prog file1 file2 : string)
    (env : Env) (t1 t2 : string) (img1 img2 : Image) :
  open_read env file1 = inl t1 -> open_read env file2 = inl t2 ->
  get_image t1 = Ok img1 -> get_image t2 = Ok img2 ->
  main Pixel_str [prog; file1; file2] env
  = if negb (Header_eq (header img1) (header img2)) then
      mkRun ("Headers mismatch: "
             ++ header_match_error (header img1) (header img2) ++ nl)
        None None (Exit 1)
    else
      match open_write env OUT_FILE_DIGITAL with
      | Some strerror =>
          mkRun (OUT_FILE_DIGITAL ++ ": " ++ strerror ++ nl) None None (Exit 1)
      | None =>
          match open_write env OUT_FILE_ANALOG with
          | Some strerror =>
              mkRun (OUT_FILE_ANALOG ++ ": " ++ strerror ++ nl) (Some "")
                None (Exit 1)
          | None =>
              let g := generate_diffs Pixel_str (pixels img1) (pixels img2)
                         (mkStreams "" "" "") (header img1) in
              mkRun (stderr (fst g)) (Some (out_digital (fst g)))
                (Some (out_analog (fst g)))
                (Exit (if existsb (fun '(pixel1, pixel2) =>
                                     negb (Pixel_eq pixel1 pixel2))
                            (zip (pixels img1) (pixels img2))
                       then 1 else 0))
          end
      end.
Proof.
  intros O1 O2 G1 G2. unfold main.
  change (check_args [prog; file1; file2]) with true. cbv iota.
  change (nth FILE_ARG1 [prog; file1; file2] "") with file1.
  change (nth FILE_ARG2 [prog; file1; file2] "") with file2.
  rewrite open_file_read, O1. cbv iota beta.
  rewrite open_file_read, O2. cbv iota beta.
  change Utility.get_image with get_image. rewrite G1, G2. cbn [bind].
  destruct (Header_eq (header img1) (header img2)); cbn [negb].
  2:{ rewrite error_text. unfold HEADER_MISMATCH. cbn [format append].
      now rewrite append_assoc. }
  rewrite open_file_write.
  destruct (open_write env OUT_FILE_DIGITAL) as [se|].
  { cbn [append]. now rewrite !append_assoc. }
  rewrite open_file_write.
  destruct (open_write env OUT_FILE_ANALOG) as [se|].
  { cbn [append]. now rewrite !append_assoc. }
  pose proof (generate_diffs_of_decoded Pixel_str t1 img1 (pixels img2)
                (mkStreams "" "" "") G1) as R.
  cbv zeta.
  destruct (generate_diffs Pixel_str (pixels img1) (pixels img2)
              (mkStreams "" "" "") (header img1)) as [s r].
  cbn [fst snd] in *. now rewrite R.
Qed.

(** X16.  When both inputs are decoded, their headers are equal, the two
    outputs can be opened and [generate_diffs] returns, the program
    has written the two images of [generate_diffs] into empty files and
    printed the diagnostic lines and nothing else, and it exits with the
    status 1 when some compared pair of pixels differs and with the
    status 0 when none does. *)
Theorem main_compares (Pixel_str : Pixel -> string) (prog file1 file2 : string)
    (env : Env) (t1 t2 : string) (img1 img2 : Image) (differ : bool) :
  open_read env file1 = inl t1 -> open_read env file2 = inl t2 ->
  get_image t1 = Ok img1 -> get_image t2 = Ok img2 ->
  header img1 = header img2 ->
  open_write env OUT_FILE_DIGITAL = None ->
  open_write env OUT_FILE_ANALOG = None ->
  snd (generate_diffs Pixel_str (pixels img1) (pixels img2)
         (mkStreams "" "" "") (header img1)) = Ok differ ->
  main Pixel_str [prog; file1; file2] env
  = mkRun
      (stderr (fst (generate_diffs Pixel_str (pixels img1) (pixels img2)
                      (mkStreams "" "" "") (header img1))))
      (Some (out_digital
               (fst (generate_diffs Pixel_str (pixels img1) (pixels img2)
                       (mkStreams "" "" "") (header img1)))))
      (Some (out_analog
               (fst (generate_diffs Pixel_str (pixels img1) (pixels img2)
                       (mkStreams "" "" "") (header img1)))))
      (Exit (if differ then 1 else 0))
  /\ differ = existsb (fun '(pixel1, pixel2) =>
                         negb (Pixel_eq pixel1 pixel2))
                (zip (pixels img1) (pixels img2)).
Proof.
  intros O1 O2 G1 G2 H W1 W2 R.
  rewrite (generate_diffs_of_decoded Pixel_str t1 img1 (pixels img2)
             (mkStreams "" "" "") G1) in R.
  injection R as R. split; [| now rewrite R].
  rewrite (main_decoded Pixel_str prog file1 file2 env t1 t2 img1 img2)
    by assumption.
  apply Header_eq_true in H. rewrite H, W1, W2, R. reflexivity.
Qed.

Lemma main_compares_witness :
  (run_end (main example_Pixel_str ["ppmdiff.py"; "a.ppm"; "b.ppm"]
              example_env) = Exit 1
   /\ run_stderr (main example_Pixel_str ["ppmdiff.py"; "a.ppm"; "b.ppm"]
                    example_env)
      = "pixels at <row=0, col=1> differ.  (0, 255, 0) <-- --> (255, 0, 0)"
        ++ nl)
  /\ true = existsb (fun '(pixel1, pixel2) => negb (Pixel_eq pixel1 pixel2))
              (zip [mkPixel 255 0 0; mkPixel 0 255 0]
                 [mkPixel 255 0 0; mkPixel 255 0 0]).
Proof.
  destruct (main_compares example_Pixel_str "ppmdiff.py" "a.ppm" "b.ppm"
              example_env
              (image_text (mkHeader 2 1 255) [mkPixel 255 0 0; mkPixel 0 255 0])
              (image_text (mkHeader 2 1 255) [mkPixel 255 0 0; mkPixel 255 0 0])
              (mkImage (mkHeader 2 1 255) [mkPixel 255 0 0; mkPixel 0 255 0])
              (mkImage (mkHeader 2 1 255) [mkPixel 255 0 0; mkPixel 255 0 0])
              true eq_refl eq_refl eq_refl eq_refl eq_refl eq_refl eq_refl
              eq_refl) as [M D].
  split; [| exact D].
  rewrite M. split; vm_compute; reflexivity.
Defined.

(** X17.  When the headers of the two decoded inputs are not equal, the
    program opens no output file, prints "Headers mismatch: " and the
    reason, which is never "nothing differs", and exits with the
    status 1. *)
Theorem main_header_mismatch (Pixel_str : Pixel -> string)
    (prog file1 file2 : string) (env : Env) (t1 t2 : string)
    (img1 img2 : Image) :
  open_read env file1 = inl t1 -> open_read env file2 = inl t2 ->
  get_image t1 = Ok img1 -> get_image t2 = Ok img2 ->
  header img1 <> header img2 ->
  main Pixel_str [prog; file1; file2] env
  = mkRun ("Headers mismatch: "
           ++ header_match_error (header img1) (header img2) ++ nl)
      None None (Exit 1)
  /\ header_match_error (header img1) (header img2) <> "nothing differs".
Proof.
  intros O1 O2 G1 G2 H.
  assert (E : Header_eq (header img1) (header img2) = false).
  { destruct (Header_eq (header img1) (header img2)) eqn:E;
      [| reflexivity].
    apply Header_eq_true in E. contradiction. }
  split.
  - rewrite (main_decoded Pixel_str prog file1 file2 env t1 t2 img1 img2)
      by assumption.
    now rewrite E.
  - revert E. unfold Header_eq, header_match_error.
    destruct (width (header img1) =? width (header img2)),
      (height (header img1) =? height (header img2)),
      (max_color (header img1) =? max_color (header img2));
      cbn; intros; discriminate.
Qed.

Lemma main_header_mismatch_witness :
  main example_Pixel_str ["ppmdiff.py"; "a.ppm"; "c.ppm"] example_env
  = mkRun ("Headers mismatch: widths differ" ++ nl) None None (Exit 1)
  /\ header_match_error (mkHeader 2 1 255) (mkHeader 3 1 255)
     <> "nothing differs".
Proof.
  apply (main_header_mismatch example_Pixel_str "ppmdiff.py" "a.ppm" "c.ppm"
           example_env
           (image_text (mkHeader 2 1 255) [mkPixel 255 0 0; mkPixel 0 255 0])
           (image_text (mkHeader 3 1 255) [mkPixel 255 0 0])
           (mkImage (mkHeader 2 1 255) [mkPixel 255 0 0; mkPixel 0 255 0])
           (mkImage (mkHeader 3 1 255) [mkPixel 255 0 0]));
    try reflexivity.
  discriminate.
Defined.

(** X18.  Both inputs are opened before either is decoded: when the first
    file cannot be opened the program reports it, and when the first
    can be opened and the second cannot the program reports the second,
    whatever the text of the first is, even one that is no image.  No
    output file is opened and the status is 1. *)
Theorem main_opens_both_inputs_first (Pixel_str : Pixel -> string)
    (prog file1 file2 : string) (env : Env) :
  (forall strerror,
      open_read env file1 = inr strerror ->
      main Pixel_str [prog; file1; file2] env
      = mkRun (file1 ++ ": " ++ strerror ++ nl) None None (Exit 1))
  /\ (forall t1 strerror,
         open_read env file1 = inl t1 ->
         open_read env file2 = inr strerror ->
         main Pixel_str [prog; file1; file2] env
         = mkRun (file2 ++ ": " ++ strerror ++ nl) None None (Exit 1)).
Proof.
  split.
  - intros se O1. unfold main.
    change (check_args [prog; file1; file2]) with true. cbv iota.
    change (nth FILE_ARG1 [prog; file1; file2] "") with file1.
    rewrite open_file_read, O1. cbn [append]. now rewrite !append_assoc.
  - intros t1 se O1 O2. unfold main.
    change (check_args [prog; file1; file2]) with true. cbv iota.
    change (nth FILE_ARG1 [prog; file1; file2] "") with file1.
    change (nth FILE_ARG2 [prog; file1; file2] "") with file2.
    rewrite open_file_read, O1. cbv iota beta.
    rewrite open_file_read, O2. cbn [append]. now rewrite !append_assoc.
Qed.

Lemma main_opens_both_inputs_first_witness :
  main example_Pixel_str ["ppmdiff.py"; "none.ppm"; "a.ppm"] example_env
  = mkRun ("none.ppm: No such file or directory" ++ nl) None None (Exit 1)
  /\ main example_Pixel_str ["ppmdiff.py"; "bad.ppm"; "none.ppm"] example_env
     = mkRun ("none.ppm: No such file or directory" ++ nl) None None (Exit 1).
Proof.
  split.
  - apply (main_opens_both_inputs_first example_Pixel_str "ppmdiff.py"
             "none.ppm" "a.ppm" example_env).
    reflexivity.
  - apply (main_opens_both_inputs_first example_Pixel_str "ppmdiff.py"
             "bad.ppm" "none.ppm" example_env
           ) with (t1 := "P3" ++ nl ++ "2 1" ++ nl ++ "255" ++ nl ++ "1 2" ++ nl);
      reflexivity.
Defined.

(** X19.  The errors of the decoder as the program reports them: the first
    input is decoded first, and an error of the decoder in it is what
    is printed, whatever the second input is; an error in the second is
    printed when the first is decoded.  An invalid header prints
    "invalid P3 header format", a pixel error prints its message, the
    status is 1 and no output file is opened.  The [ZeroDivisionError]
    of a width 0 is not among the errors caught. *)
Theorem main_decoder_errors (Pixel_str : Pixel -> string)
    (prog file1 file2 : string) (env : Env) (t1 t2 : string) (e : exn) :
  open_read env file1 = inl t1 -> open_read env file2 = inl t2 ->
  get_image t1 = Raise e
  \/ (exists img1, get_image t1 = Ok img1) /\ get_image t2 = Raise e ->
  main Pixel_str [prog; file1; file2] env
  = match e with
    | P3InvalidHeaderError =>
        mkRun ("invalid P3 header format" ++ nl) None None (Exit 1)
    | PartialPixelError msg | MalformedPixelError msg =>
        mkRun (msg ++ nl) None None (Exit 1)
    | ZeroDivisionError => mkRun "" None None (Uncaught ZeroDivisionError)
    end.
Proof.
  intros O1 O2 H. unfold main.
  change (check_args [prog; file1; file2]) with true. cbv iota.
  change (nth FILE_ARG1 [prog; file1; file2] "") with file1.
  change (nth FILE_ARG2 [prog; file1; file2] "") with file2.
  rewrite open_file_read, O1. cbv iota beta.
  rewrite open_file_read, O2. cbv iota beta.
  change Utility.get_image with get_image.
  assert (E : (image1 <- get_image t1 ;; image2 <- get_image t2 ;;
               Ok (image1, image2)) = Raise e).
  { destruct H as [G1 | [[img1 G1] G2]].
    - now rewrite G1.
    - now rewrite G1, G2. }
  rewrite E. unfold handle.
  destruct e; rewrite ?error_text; reflexivity.
Qed.

Lemma main_decoder_errors_witness :
  main example_Pixel_str ["ppmdiff.py"; "bad.ppm"; "a.ppm"] example_env
  = mkRun ("partial pixel at <row=0, col=0>" ++ nl) None None (Exit 1)
  /\ main example_Pixel_str ["ppmdiff.py"; "a.ppm"; "bad.ppm"] example_env
     = mkRun ("partial pixel at <row=0, col=0>" ++ nl) None None (Exit 1).
Proof.
  split.
  - apply (main_decoder_errors example_Pixel_str "ppmdiff.py" "bad.ppm" "a.ppm"
             example_env
             ("P3" ++ nl ++ "2 1" ++ nl ++ "255" ++ nl ++ "1 2" ++ nl)
             (image_text (mkHeader 2 1 255) [mkPixel 255 0 0; mkPixel 0 255 0])
             (PartialPixelError "partial pixel at <row=0, col=0>"));
      try reflexivity.
    left. vm_compute. reflexivity.
  - apply (main_decoder_errors example_Pixel_str "ppmdiff.py" "a.ppm" "bad.ppm"
             example_env
             (image_text (mkHeader 2 1 255) [mkPixel 255 0 0; mkPixel 0 255 0])
             ("P3" ++ nl ++ "2 1" ++ nl ++ "255" ++ nl ++ "1 2" ++ nl)
             (PartialPixelError "partial pixel at <row=0, col=0>"));
      try reflexivity.
    right. split; [eexists |]; vm_compute; reflexivity.
Defined.

(* ================================================================= *)
(** ** Images with a different number of pixels *)

Lemma image_text_decoded_nonzero (h : Header) (ps : list Pixel) :
  width h <> 0 ->
  printable_header h = true -> forallb printable_pixel ps = true ->
  get_image (image_text h ps) = Ok (mkImage h ps).
Proof.
  intros W Ph Pp. rewrite get_image_image_text by exact Ph. unfold enumerate.
  now rewrite comprehension_pixel_tokens.
Qed.

Lemma zip_app_same {A} (l e1 e2 : list A) :
  e1 = [] \/ e2 = [] -> zip (l ++ e1)%list (l ++ e2)%list = zip l l.
Proof.
  intros H. induction l as [|x l IH]; simpl.
  - destruct H as [-> | ->]; [reflexivity | now destruct e1].
  - now rewrite IH.
Qed.

Lemma existsb_differ_same (ps : list Pixel) :
  existsb (fun '(pixel1, pixel2) => negb (Pixel_eq pixel1 pixel2)) (zip ps ps)
  = false.
Proof.
  induction ps as [|p ps IH]; simpl; [reflexivity |].
  now rewrite Pixel_eq_refl, IH.
Qed.

(** X20.  The program does not notice that one image has more pixels
    than the other: for two images with one header (of a width that is
    not zero) whose pixels agree as far as the shorter one goes, all
    integers being within the interpreter's limit of 4300 digits, it
    prints nothing and exits with the status 0, as for identical images,
    and the images it writes have one white row per pixel of the shorter
    image. *)
Theorem main_ignores_trailing_pixels (Pixel_str : Pixel -> string)
    (prog file1 file2 : string) (env : Env) (h : Header)
    (ps extra1 extra2 : list Pixel) :
  width h <> 0 ->
  printable_header h = true ->
  forallb printable_pixel (ps ++ extra1 ++ extra2) = true ->
  extra1 = [] \/ extra2 = [] ->
  open_read env file1 = inl (image_text h (ps ++ extra1)) ->
  open_read env file2 = inl (image_text h (ps ++ extra2)) ->
  open_write env OUT_FILE_DIGITAL = None ->
  open_write env OUT_FILE_ANALOG = None ->
  main Pixel_str [prog; file1; file2] env
  = mkRun ""
      (Some (write_header "" h
             ++ String.concat "" (repeat (white_row h) (List.length ps))))
      (Some (write_header "" h
             ++ String.concat "" (repeat (white_row h) (List.length ps))))
      (Exit 0).
Proof.
  intros W Ph Pp E O1 O2 W1 W2.
  rewrite !forallb_app in Pp.
  apply andb_prop in Pp as [Pps Pe]. apply andb_prop in Pe as [Pe1 Pe2].
  rewrite (main_decoded Pixel_str prog file1 file2 env _ _
             (mkImage h (ps ++ extra1)) (mkImage h (ps ++ extra2)) O1 O2)
    by (apply image_text_decoded_nonzero; try assumption;
        rewrite forallb_app; apply andb_true_intro; split; assumption).
  cbn [header pixels]. rewrite (proj2 (Header_eq_true h h) eq_refl).
  cbn [negb]. rewrite W1, W2. cbv zeta.
  rewrite zip_app_same, existsb_differ_same by exact E.
  unfold generate_diffs, process_pixels, enumerate. cbv zeta.
  rewrite zip_app_same by exact E.
  rewrite process_loop_all_equal by apply forallb_equal_enumerate_same.
  cbn [fst out_digital out_analog stderr].
  now rewrite enumerate_from_length, zip_length, Nat.min_id.
Qed.

Lemma main_ignores_trailing_pixels_witness :
  main example_Pixel_str ["ppmdiff.py"; "b.ppm"; "b1.ppm"]
    (mkEnv
       (fun name =>
          if (name =? "b.ppm")%string then
            inl (image_text (mkHeader 2 1 255)
                   ([mkPixel 255 0 0; mkPixel 255 0 0] ++ []))
          else
            inl (image_text (mkHeader 2 1 255)
                   ([mkPixel 255 0 0; mkPixel 255 0 0] ++ [mkPixel 1 2 3])))
       (fun _ => None))
  = mkRun ""
      (Some ("P3" ++ nl ++ nl ++ "2 1" ++ nl ++ nl ++ "255" ++ nl ++ nl
             ++ "255 255 255 " ++ nl ++ "255 255 255 " ++ nl))
      (Some ("P3" ++ nl ++ nl ++ "2 1" ++ nl ++ nl ++ "255" ++ nl ++ nl
             ++ "255 255 255 " ++ nl ++ "255 255 255 " ++ nl))
      (Exit 0).
Proof.
  apply (main_ignores_trailing_pixels example_Pixel_str "ppmdiff.py"
           "b.ppm" "b1.ppm" _ (mkHeader 2 1 255)
           [mkPixel 255 0 0; mkPixel 255 0 0] [] [mkPixel 1 2 3]);
    try reflexivity.
  - simpl. lia.
  - now left.
Defined.
